(** * LearnForge: the concept mastery engine

    A shallow embedding of the mastery loop of LearnForge: the shared types
    ([types.ts]), the two reasoning-provider services ([geminiService.ts],
    [openaiService.ts]) behind their facade ([aiService.ts]), the
    [LearningGame] component's handlers, the concept map's links and click
    handler ([ConceptMap.tsx]) and the concept collection held by [App];
    then content ingestion ([fileProcessing.ts]), the set-up, summary and
    notes screens and the note store ([supabaseService.ts]).  The provider,
    [crypto.randomUUID] and [Date.now] are an oracle carried in the
    [World]; every handler of the game is a computation in a small
    state-and-exception monad over that world.  A handler is modelled from
    its first statement to its last; where a statement depends on no other
    handler running in between, it says so. *)

From Stdlib Require Import List ZArith NArith Bool String Ascii Lia Arith.
From Equations Require Import Equations.
Import ListNotations.

Local Open Scope Z_scope.

(** ** JavaScript strings

    A string is its sequence of UTF-16 code units. *)

Definition JsString := list N.

(** A literal of the source (all of them are ASCII). *)
Definition str (s : string) : JsString :=
  map N_of_ascii (list_ascii_of_string s).

(** [a === b] on strings. *)
Fixpoint strEqb (a b : JsString) : bool :=
  match a, b with
  | [], [] => true
  | x :: a', y :: b' => N.eqb x y && strEqb a' b'
  | _, _ => false
  end.

(** [Array.prototype.includes] on an array of strings. *)
Definition includes (l : list JsString) (x : JsString) : bool :=
  existsb (fun y => strEqb y x) l.

(** [Array.prototype.join]. *)
Fixpoint join (sep : JsString) (l : list JsString) : JsString :=
  match l with
  | [] => []
  | [x] => x
  | x :: rest => x ++ sep ++ join sep rest
  end.

(** ECMAScript's WhiteSpace and LineTerminator code points, the ones
    [String.prototype.trim] strips.  All of them are single code units. *)
Definition isWhiteSpace (u : N) : bool :=
  let u := Z.of_N u in
  (u =? 0x09) || (u =? 0x0A) || (u =? 0x0B) || (u =? 0x0C) || (u =? 0x0D)
  || (u =? 0x20) || (u =? 0xA0) || (u =? 0x1680)
  || ((0x2000 <=? u) && (u <=? 0x200A))
  || (u =? 0x2028) || (u =? 0x2029) || (u =? 0x202F) || (u =? 0x205F)
  || (u =? 0x3000) || (u =? 0xFEFF).

Fixpoint trimStart (s : JsString) : JsString :=
  match s with
  | [] => []
  | u :: rest => if isWhiteSpace u then trimStart rest else s
  end.

Definition trimEnd (s : JsString) : JsString := rev (trimStart (rev s)).

(** [String.prototype.trim]. *)
Definition trim (s : JsString) : JsString := trimEnd (trimStart s).

(** Truthiness of a string: every string but the empty one. *)
Definition truthy (s : JsString) : bool :=
  match s with [] => false | _ :: _ => true end.

(** ** The shared types ([types.ts]) *)

(** [enum MasteryLevel]: a numeric enum, a number at run time. *)
Module MasteryLevel.
Definition LOCKED : Z := 0.
Definition RECOGNITION : Z := 1.
Definition UNDERSTANDING : Z := 2.
Definition APPLICATION : Z := 3.
Definition REASONING : Z := 4.

(** The members of the enum. *)
Definition member (l : Z) : Prop := LOCKED <= l <= REASONING.
End MasteryLevel.

Module MistakeRecord.
Record t : Type := Build {
  id : JsString;
  timestamp : Z;
  question : JsString;
  userAnswer : JsString;
  correction : JsString;
  misunderstandingType : JsString
}.
End MistakeRecord.

Module Concept.
Record t : Type := Build {
  id : JsString;
  title : JsString;
  description : JsString;
  dependencies : list JsString;
  masteryLevel : Z;
  mistakes : list MistakeRecord.t
}.

(** [{ ...c, masteryLevel: l }] *)
Definition withMasteryLevel (c : t) (l : Z) : t :=
  Build (id c) (title c) (description c) (dependencies c) l (mistakes c).

(** [{ ...c, mistakes: ms }] *)
Definition withMistakes (c : t) (ms : list MistakeRecord.t) : t :=
  Build (id c) (title c) (description c) (dependencies c) (masteryLevel c) ms.
End Concept.

Inductive QuestionType : Type :=
| MULTIPLE_CHOICE
| SHORT_ANSWER
| SCENARIO
| OPEN_REASONING.

Module Question.
Record t : Type := Build {
  id : JsString;
  conceptId : JsString;
  text : JsString;
  type : QuestionType;
  options : option (list JsString);
  correctAnswerContext : option JsString
}.
End Question.

Module AssessmentResult.
Record t : Type := Build {
  isCorrect : bool;
  explanation : JsString;
  conceptUpdate : option Z
}.
End AssessmentResult.

(** ** The world outside the program *)

(** The two provider back ends ([selectedProvider] of [aiService.ts]). *)
Inductive Backend : Type := openai | gemini.

(** One entry of [conceptData], the payload of the summary prompt. *)
Module MistakeData.
Record t : Type := Build {
  question : JsString;
  userAnswer : JsString;
  correction : JsString;
  type : JsString
}.
End MistakeData.

Module ConceptData.
Record t : Type := Build {
  title : JsString;
  description : JsString;
  masteryLevel : Z;
  dependencies : list JsString;
  mistakes : list MistakeData.t
}.
End ConceptData.

(** A request to the reasoning provider, kept as the values its prompt is
    built from (the prompt's fixed wording carries nothing else). *)
Inductive Request : Type :=
| ExtractRequest (backend : Backend) (content : JsString)
| QuestionRequest (backend : Backend) (currentLevel : Z)
    (title description relatedConcepts : JsString)
| EvaluationRequest (backend : Backend) (levelTarget : Z)
    (questionText : JsString) (correctAnswerContext : option JsString)
    (userAnswer : JsString)
| SummaryRequest (backend : Backend) (conceptData : list ConceptData.t).

(** What awaiting a request gives: the call throws, or it resolves with
    the response's text ([response.text], or
    [response.choices[0]?.message?.content]), which may be missing. *)
Inductive Completion : Type :=
| Rejected
| Fulfilled (content : option JsString).

Record World : Type := MkWorld {
  provider : nat -> Completion;   (* the answer to the n-th request *)
  requests : list Request;        (* the requests made so far, oldest first *)
  uuidSource : nat -> JsString;   (* the n-th [crypto.randomUUID()] *)
  uuidsDrawn : nat;
  clock : nat -> Z;               (* the n-th [Date.now()] *)
  clockReads : nat
}.

(** ** Computations: state over the world, with exceptions *)

Inductive Outcome (A : Type) : Type :=
| Return (a : A)
| Throw (message : JsString).
Arguments Return {A} a.
Arguments Throw {A} message.

Definition M (A : Type) : Type := World -> Outcome A * World.

Definition ret {A} (a : A) : M A := fun w => (Return a, w).

Definition bind {A B} (m : M A) (k : A -> M B) : M B :=
  fun w =>
    match m w with
    | (Return a, w') => k a w'
    | (Throw e, w') => (Throw e, w')
    end.

Definition throw {A} (message : JsString) : M A := fun w => (Throw message, w).

(** [try { body } catch (error) { handler }] *)
Definition tryCatch {A} (body : M A) (handler : JsString -> M A) : M A :=
  fun w =>
    match body w with
    | (Return a, w') => (Return a, w')
    | (Throw e, w') => handler e w'
    end.

Declare Scope js_scope.
Delimit Scope js_scope with js.
Notation "x <- m ;; k" := (bind m (fun x => k))
  (at level 100, m at next level, right associativity) : js_scope.
Local Open Scope js_scope.

(** The provider's answer to the next request. *)
Definition nextCompletion (w : World) : Completion :=
  provider w (List.length (requests w)).

(** The world once request [r] has gone out. *)
Definition logged (r : Request) (w : World) : World :=
  MkWorld (provider w) (requests w ++ [r]) (uuidSource w) (uuidsDrawn w)
    (clock w) (clockReads w).

(** The request goes out and the provider's next answer comes back. *)
Definition send (r : Request) : M Completion :=
  fun w => (Return (nextCompletion w), logged r w).

(** [await <client>.create(request)], then reading the response's text: a
    rejected call is raised as an exception. *)
Definition awaitProvider (r : Request) : M (option JsString) :=
  c <- send r ;;
  match c with
  | Rejected => throw (str "request failed")
  | Fulfilled content => ret content
  end.

(** [crypto.randomUUID()] *)
Definition randomUUID : M JsString :=
  fun w =>
    (Return (uuidSource w (uuidsDrawn w)),
     MkWorld (provider w) (requests w) (uuidSource w) (S (uuidsDrawn w))
       (clock w) (clockReads w)).

(** [Date.now()] *)
Definition dateNow : M Z :=
  fun w =>
    (Return (clock w (clockReads w)),
     MkWorld (provider w) (requests w) (uuidSource w) (uuidsDrawn w)
       (clock w) (S (clockReads w))).

(** ** JSON read at the shapes the services expect

    [JSON.parse(text)] followed by the use of the value at its declared
    type; [None] when [JSON.parse] throws. *)

(** One extracted concept, before [masteryLevel] and [mistakes] are set. *)
Module RawConcept.
Record t : Type := Build {
  id : JsString;
  title : JsString;
  description : JsString;
  dependencies : list JsString
}.
End RawConcept.

(** The extraction response: an array of concepts, or an object that may
    hold them under [concepts]. *)
Inductive ExtractionJson : Type :=
| JsonArray (items : list RawConcept.t)
| JsonObject (concepts : option (list RawConcept.t)).

(** The question response, spread last into the [Question]
    ([{ id, conceptId, ...data }]): the four fields the prompt (and, for
    Gemini, the response schema) asks for, and the keys [id] and
    [conceptId] when the response carries them too, which then replace the
    ones the service has just written. *)
Module QuestionData.
Record t : Type := Build {
  id : option JsString;
  conceptId : option JsString;
  text : JsString;
  type : QuestionType;
  options : option (list JsString);
  correctAnswerContext : option JsString
}.
End QuestionData.

(** [{ key: mine, ...data }] at [key]: the value of [data] when it has the
    key. *)
Definition spreadOver {A} (mine : A) (theirs : option A) : A :=
  match theirs with
  | Some v => v
  | None => mine
  end.

Class JsonReader : Type := {
  parseConcepts : JsString -> option ExtractionJson;
  parseQuestion : JsString -> option QuestionData.t;
  parseAssessment : JsString -> option AssessmentResult.t
}.

(** [JSON.parse] inside a [try] block. *)
Definition jsonParse {A} (parse : JsString -> option A) (text : JsString) : M A :=
  match parse text with
  | Some v => ret v
  | None => throw (str "SyntaxError")
  end.

(** The test [if (text)] on a response text that may be missing. *)
Definition textOf (content : option JsString) : option JsString :=
  match content with
  | Some text => if truthy text then Some text else None
  | None => None
  end.

(** ** The emoji filter of the summary

    [summary.replace(/[...]/gu, '')]: with the [u] flag the pattern runs
    over code points, so a surrogate pair is one character. *)

Definition isHighSurrogate (u : N) : bool :=
  (0xD800 <=? Z.of_N u) && (Z.of_N u <=? 0xDBFF).

Definition isLowSurrogate (u : N) : bool :=
  (0xDC00 <=? Z.of_N u) && (Z.of_N u <=? 0xDFFF).

Definition codePoint (hi lo : N) : Z :=
  0x10000 + (Z.of_N hi - 0xD800) * 0x400 + (Z.of_N lo - 0xDC00).

Definition inRange (lo hi p : Z) : bool := (lo <=? p) && (p <=? hi).

Definition isEmoji (p : Z) : bool :=
  inRange 0x1F600 0x1F64F p || inRange 0x1F300 0x1F5FF p
  || inRange 0x1F680 0x1F6FF p || inRange 0x1F1E0 0x1F1FF p
  || inRange 0x2600 0x26FF p || inRange 0x2700 0x27BF p.

Fixpoint stripEmoji (s : JsString) : JsString :=
  match s with
  | [] => []
  | u :: tl =>
      match tl with
      | lo :: rest =>
          if isHighSurrogate u && isLowSurrogate lo then
            if isEmoji (codePoint u lo) then stripEmoji rest
            else u :: lo :: stripEmoji rest
          else if isEmoji (Z.of_N u) then stripEmoji tl
          else u :: stripEmoji tl
      | [] => if isEmoji (Z.of_N u) then [] else [u]
      end
  end.

(** ** The provider services ([geminiService.ts], [openaiService.ts])

    The two files differ in the client they call and in how the
    extraction response is unpacked; [b] says which one runs. *)

Module Service.
Section Service.
Context {json : JsonReader}.
Variable b : Backend.

(** [c => ({ ...c, masteryLevel: MasteryLevel.LOCKED, mistakes: [] })] *)
Definition initialise (c : RawConcept.t) : Concept.t :=
  Concept.Build (RawConcept.id c) (RawConcept.title c)
    (RawConcept.description c) (RawConcept.dependencies c)
    MasteryLevel.LOCKED [].

Definition extractConceptsFromContent (content : JsString)
  : M (list Concept.t) :=
  if negb (truthy (trim content)) then ret []
  else
    tryCatch
      (response <- awaitProvider (ExtractRequest b content) ;;
       match textOf response with
       | Some text =>
           parsed <- jsonParse parseConcepts text ;;
           match b, parsed with
           | _, JsonArray items => ret (map initialise items)
           | openai, JsonObject (Some items) => ret (map initialise items)
           | openai, JsonObject None => ret []
           | gemini, JsonObject _ =>
               throw (str "TypeError: parsed.map is not a function")
           end
       | None => ret []
       end)
      (fun _ => throw (str "Failed to extract concepts.")).

(** [concept.masteryLevel === MasteryLevel.LOCKED ? 1 : concept.masteryLevel] *)
Definition currentLevel (concept : Concept.t) : Z :=
  if Concept.masteryLevel concept =? MasteryLevel.LOCKED then 1
  else Concept.masteryLevel concept.

Definition relatedConcepts (concept : Concept.t) (allConcepts : list Concept.t)
  : JsString :=
  join (str ", ")
    (map Concept.title
       (filter
          (fun c =>
             includes (Concept.dependencies concept) (Concept.id c)
             || includes (Concept.dependencies c) (Concept.id concept))
          allConcepts)).

(** The question of the [catch] branch. *)
Definition fallbackQuestion (concept : Concept.t) : Question.t :=
  Question.Build (str "error") (Concept.id concept)
    (str "Explain the concept of " ++ Concept.title concept)
    SHORT_ANSWER None (Some (Concept.description concept)).

Definition generateQuestion (concept : Concept.t) (allConcepts : list Concept.t)
  : M Question.t :=
  tryCatch
    (response <- awaitProvider
                   (QuestionRequest b (currentLevel concept)
                      (Concept.title concept) (Concept.description concept)
                      (relatedConcepts concept allConcepts)) ;;
     match textOf response with
     | Some text =>
         data <- jsonParse parseQuestion text ;;
         uuid <- randomUUID ;;
         ret (Question.Build
                (spreadOver uuid (QuestionData.id data))
                (spreadOver (Concept.id concept) (QuestionData.conceptId data))
                (QuestionData.text data) (QuestionData.type data)
                (QuestionData.options data)
                (QuestionData.correctAnswerContext data))
     | None => throw (str "Empty response")
     end)
    (fun _ => ret (fallbackQuestion concept)).

(** [concept.masteryLevel || 1] *)
Definition levelTarget (concept : Concept.t) : Z :=
  if Concept.masteryLevel concept =? 0 then 1 else Concept.masteryLevel concept.

(** The result of the [catch] branch. *)
Definition evaluationError : AssessmentResult.t :=
  AssessmentResult.Build false
    (str "An error occurred during evaluation. Please try again.") None.

Definition evaluateAnswer (question : Question.t) (userAnswer : JsString)
    (concept : Concept.t) : M AssessmentResult.t :=
  tryCatch
    (response <- awaitProvider
                   (EvaluationRequest b (levelTarget concept)
                      (Question.text question)
                      (Question.correctAnswerContext question) userAnswer) ;;
     match textOf response with
     | Some text => jsonParse parseAssessment text
     | None => throw (str "Evaluation failed")
     end)
    (fun _ => ret evaluationError).

Definition conceptData (concepts : list Concept.t) : list ConceptData.t :=
  map (fun c =>
         ConceptData.Build (Concept.title c) (Concept.description c)
           (Concept.masteryLevel c) (Concept.dependencies c)
           (map (fun m =>
                   MistakeData.Build (MistakeRecord.question m)
                     (MistakeRecord.userAnswer m) (MistakeRecord.correction m)
                     (MistakeRecord.misunderstandingType m))
                (Concept.mistakes c)))
      concepts.

Definition newline : JsString := [10%N].

Definition generateUnifiedSummary (concepts : list Concept.t) : M JsString :=
  if (List.length concepts =? 0)%nat then ret (str "No concepts to summarize.")
  else
    tryCatch
      (response <- awaitProvider (SummaryRequest b (conceptData concepts)) ;;
       let summary :=
         match textOf response with
         | Some text => text
         | None =>
             str "# Summary" ++ newline ++ newline
             ++ str "Could not generate summary."
         end in
       ret (stripEmoji summary))
      (fun _ =>
         ret (str "# Error" ++ newline ++ newline
              ++ str "Failed to generate summary.")).
End Service.
End Service.

(** ** The facade ([aiService.ts]) *)

(** The variables of [import.meta.env] the facade reads. *)
Class Env : Type := {
  VITE_AI_PROVIDER : option JsString;
  VITE_OPENAI_API_KEY : option JsString;
  VITE_GEMINI_API_KEY : option JsString
}.

Module AiService.
Section AiService.
Context {json : JsonReader} {env : Env}.

(** [!!key && key.length > 5] *)
Definition hasKey (key : option JsString) : bool :=
  match key with
  | Some k => truthy k && (5 <? List.length k)%nat
  | None => false
  end.

Definition providerIs (name : string) : bool :=
  match VITE_AI_PROVIDER with
  | Some p => strEqb p (str name)
  | None => false
  end.

Definition selectedProvider : Backend :=
  if providerIs "openai" && hasKey VITE_OPENAI_API_KEY then openai
  else if providerIs "gemini" && hasKey VITE_GEMINI_API_KEY then gemini
  else if hasKey VITE_OPENAI_API_KEY then openai
  else gemini.

Definition extractConceptsFromContent :=
  Service.extractConceptsFromContent selectedProvider.
Definition generateQuestion := Service.generateQuestion selectedProvider.
Definition evaluateAnswer := Service.evaluateAnswer selectedProvider.
Definition generateUnifiedSummary :=
  Service.generateUnifiedSummary selectedProvider.
End AiService.
End AiService.

(** ** The game component ([LearningGame.tsx]) *)

(** What a handler asks of its host through the component's props. *)
Inductive HostCall : Type :=
| onUpdateConcept (updatedConcept : Concept.t)
| setTimeoutOnClose (delay : Z).

Module LearningGame.

(** The component's [useState] cells. *)
Record State : Type := MkState {
  currentQuestion : option Question.t;
  loading : bool;
  userAnswer : JsString;
  assessment : option AssessmentResult.t;
  submitting : bool;
  questionHistory : list JsString;
  needsRetry : bool
}.

(** The cells at mount. *)
Definition initialState : State := MkState None true [] None false [] false.

Definition setCurrentQuestion (v : option Question.t) (s : State) : State :=
  MkState v (loading s) (userAnswer s) (assessment s) (submitting s)
    (questionHistory s) (needsRetry s).
Definition setLoading (v : bool) (s : State) : State :=
  MkState (currentQuestion s) v (userAnswer s) (assessment s) (submitting s)
    (questionHistory s) (needsRetry s).
Definition setUserAnswer (v : JsString) (s : State) : State :=
  MkState (currentQuestion s) (loading s) v (assessment s) (submitting s)
    (questionHistory s) (needsRetry s).
Definition setAssessment (v : option AssessmentResult.t) (s : State) : State :=
  MkState (currentQuestion s) (loading s) (userAnswer s) v (submitting s)
    (questionHistory s) (needsRetry s).
Definition setSubmitting (v : bool) (s : State) : State :=
  MkState (currentQuestion s) (loading s) (userAnswer s) (assessment s) v
    (questionHistory s) (needsRetry s).
Definition setQuestionHistory (f : list JsString -> list JsString) (s : State)
  : State :=
  MkState (currentQuestion s) (loading s) (userAnswer s) (assessment s)
    (submitting s) (f (questionHistory s)) (needsRetry s).
Definition setNeedsRetry (v : bool) (s : State) : State :=
  MkState (currentQuestion s) (loading s) (userAnswer s) (assessment s)
    (submitting s) (questionHistory s) v.

Section Handlers.
Context {json : JsonReader} {env : Env}.

(** The props [concept] and [allConcepts] of the render the handler
    closes over. *)
Variable concept : Concept.t.
Variable allConcepts : list Concept.t.

(** The effect run at mount and when [concept.id] changes. *)
Definition loadQ (s : State) : M State :=
  let s := setLoading true s in
  q <- AiService.generateQuestion concept allConcepts ;;
  let s := setCurrentQuestion (Some q) s in
  ret (setLoading false s).

(** The mistake recorded for a wrong answer. *)
Definition newMistake (uuid : JsString) (now : Z) (question : Question.t)
    (answer : JsString) (result : AssessmentResult.t) : MistakeRecord.t :=
  MistakeRecord.Build uuid now (Question.text question) answer
    (AssessmentResult.explanation result) (str "Conceptual").

Definition handleSubmit (s : State) : M (State * list HostCall) :=
  match currentQuestion s with
  | None => ret (s, [])
  | Some question =>
      if negb (truthy (trim (userAnswer s))) then ret (s, [])
      else
        let answer := userAnswer s in
        let s := setSubmitting true s in
        result <- AiService.evaluateAnswer question answer concept ;;
        let s := setAssessment (Some result) s in
        let s := setSubmitting false s in
        let s := setQuestionHistory
                   (fun prev => prev ++ [Question.text question]) s in
        if AssessmentResult.isCorrect result then
          let s := setNeedsRetry false s in
          let currentLevel :=
            if Concept.masteryLevel concept =? MasteryLevel.LOCKED then 1
            else Concept.masteryLevel concept in
          let nextLevel := Z.min (currentLevel + 1) MasteryLevel.REASONING in
          if currentLevel <? MasteryLevel.REASONING then
            ret (s, [onUpdateConcept (Concept.withMasteryLevel concept nextLevel)])
          else
            ret (s, [onUpdateConcept
                       (Concept.withMasteryLevel concept MasteryLevel.REASONING);
                     setTimeoutOnClose 2000])
        else
          let s := setNeedsRetry true s in
          uuid <- randomUUID ;;
          now <- dateNow ;;
          ret (s, [onUpdateConcept
                     (Concept.withMistakes concept
                        (Concept.mistakes concept
                         ++ [newMistake uuid now question answer result]))])
  end.

Definition maxAttempts : nat := 5.

Definition inspect {A} (a : A) : {b : A | a = b} := exist _ a eq_refl.

(** The loop [while (questionHistory.includes(newQuestion.text) &&
    attempts < maxAttempts) { newQuestion = await generateQuestion(...);
    attempts++ }], from the values of [attempts] and [newQuestion] at its
    head. *)
Equations? regenerate (history : list JsString) (attempts : nat)
    (newQuestion : Question.t) (w : World) : Outcome Question.t * World
    by wf (maxAttempts - attempts)%nat lt :=
  regenerate history attempts newQuestion w
    with inspect (includes history (Question.text newQuestion)
                  && (attempts <? maxAttempts)%nat) := {
    | exist _ true _
        with AiService.generateQuestion concept allConcepts w := {
        | (Return q, w') := regenerate history (S attempts) q w';
        | (Throw e, w') := (Throw e, w') };
    | exist _ false _ := (Return newQuestion, w) }.
Proof.
  apply andb_prop in e as [_ Hlt]. apply Nat.ltb_lt in Hlt.
  unfold maxAttempts in Hlt.
  do 5 (destruct attempts as [|attempts]; [simpl; lia|]). lia.
Qed.

Definition handleNext (s : State) : M State :=
  let s := setAssessment None s in
  let s := setUserAnswer [] s in
  let s := setCurrentQuestion None s in
  let s := setLoading true s in
  newQuestion <- AiService.generateQuestion concept allConcepts ;;
  newQuestion <- regenerate (questionHistory s) 0 newQuestion ;;
  let s := setCurrentQuestion (Some newQuestion) s in
  ret (setLoading false s).

End Handlers.
End LearningGame.

(** ** The host ([App.tsx]) *)

Module App.

(** The concept collection and the selection.  The [view] cell is left
    out: the sessions below cover the time the learning view is on screen,
    from [startSession] until the learner leaves it through the navbar;
    during that time the game is on screen whenever a concept is
    selected. *)
Record State : Type := MkState {
  concepts : list Concept.t;
  selectedConcept : option Concept.t
}.

Definition initialState : State := MkState [] None.

Definition startSession (extractedConcepts : list Concept.t) (s : State) : State :=
  MkState extractedConcepts (selectedConcept s).

Definition setSelectedConcept (v : option Concept.t) (s : State) : State :=
  MkState (concepts s) v.

Definition updateConcept (updated : Concept.t) (s : State) : State :=
  let newConcepts :=
    map (fun c => if strEqb (Concept.id c) (Concept.id updated) then updated else c)
      (concepts s) in
  MkState newConcepts
    match selectedConcept s with
    | Some selected =>
        if strEqb (Concept.id selected) (Concept.id updated) then Some updated
        else Some selected
    | None => None
    end.

End App.

(** ** The concept map ([ConceptMap.tsx]) *)

Module ConceptMap.

(** An arrow of the map, from a prerequisite to the concept that needs it. *)
Record Link : Type := MkLink {
  source : JsString;
  target : JsString
}.

(** [concepts.find(t => t.id === id)] *)
Definition findById (concepts : list Concept.t) (id : JsString)
  : option Concept.t :=
  find (fun t => strEqb (Concept.id t) id) concepts.

(** The [links] the effect builds: for each concept, in order, one link per
    dependency that names a concept of the collection. *)
Definition links (concepts : list Concept.t) : list Link :=
  flat_map
    (fun c =>
       flat_map
         (fun depId =>
            match findById concepts depId with
            | Some t => [MkLink (Concept.id t) (Concept.id c)]
            | None => []
            end)
         (Concept.dependencies c))
    concepts.

(** The click handler of the [i]-th node, a copy [d] of [concepts[i]]:
    [onSelectConcept(concepts.find(c => c.id === d.id)!)]. *)
Definition clicked (concepts : list Concept.t) (i : nat) : option Concept.t :=
  match nth_error concepts i with
  | Some d => findById concepts (Concept.id d)
  | None => None
  end.

End ConceptMap.

(** ** A session: the host, the mounted game and the world *)

Record Session : Type := MkSession {
  app : App.State;
  game : option LearningGame.State;   (* [None]: the game is not mounted *)
  closeTimers : nat;                  (* pending [setTimeout(onClose)] *)
  world : World
}.

(** What the learner, or a timer, can do while the learning view is on
    screen.  An event is delivered whether or not the control it comes from
    is enabled on screen, and when no call to the provider is outstanding:
    the handler of an event has completed, hand-back to the host included,
    before the next event arrives. *)
Inductive Event : Type :=
| SelectNode (i : nat)
| TypeAnswer (answer : JsString)
| ClickSubmit
| ClickContinue
| ClickClose
| TimerFires.

Section Session.
Context {json : JsonReader} {env : Env}.

(** A session starts with the extracted concepts and nothing selected. *)
Definition start (extractedConcepts : list Concept.t) (w : World) : Session :=
  MkSession (App.startSession extractedConcepts App.initialState) None 0 w.

(** The host's answer to the calls of one handler run. *)
Definition deliver (calls : list HostCall) (a : App.State) (timers : nat)
  : App.State * nat :=
  fold_left
    (fun st call =>
       match call with
       | onUpdateConcept updated => (App.updateConcept updated (fst st), snd st)
       | setTimeoutOnClose _ => (fst st, S (snd st))
       end)
    calls (a, timers).

(** [onClose]: the selection is cleared, which unmounts the game. *)
Definition close (s : Session) : Session :=
  MkSession (App.setSelectedConcept None (app s)) None (closeTimers s) (world s).

(** A handler that only changes the game's cells.  No handler of the game
    throws (the services catch every failure), so the [Throw] branch, which
    keeps the cells, is never taken. *)
Definition runGame (m : M LearningGame.State) (a : App.State) (s : Session)
  : Session :=
  match m (world s) with
  | (Return g, w) => MkSession a (Some g) (closeTimers s) w
  | (Throw _, w) => MkSession a (game s) (closeTimers s) w
  end.

(** [setSelectedConcept(c)] and what the game does on the next render: it
    mounts and loads a question, or, already mounted, re-runs its effect
    when the concept id has changed. *)
Definition selectConcept (c : Concept.t) (s : Session) : Session :=
  let a := App.setSelectedConcept (Some c) (app s) in
  match App.selectedConcept (app s), game s with
  | Some old, Some g =>
      if strEqb (Concept.id old) (Concept.id c) then
        MkSession a (Some g) (closeTimers s) (world s)
      else runGame (LearningGame.loadQ c (App.concepts a) g) a s
  | _, _ =>
      runGame (LearningGame.loadQ c (App.concepts a) LearningGame.initialState)
        a s
  end.

(** A click on the [i]-th node of the map, through the map's click
    handler. *)
Definition selectNode (i : nat) (s : Session) : Session :=
  match ConceptMap.clicked (App.concepts (app s)) i with
  | Some c => selectConcept c s
  | None => s
  end.

Definition step (e : Event) (s : Session) : Session :=
  match e with
  | SelectNode i => selectNode i s
  | TypeAnswer answer =>
      match game s with
      | Some g =>
          MkSession (app s) (Some (LearningGame.setUserAnswer answer g))
            (closeTimers s) (world s)
      | None => s
      end
  | ClickSubmit =>
      match App.selectedConcept (app s), game s with
      | Some c, Some g =>
          match LearningGame.handleSubmit c g (world s) with
          | (Return (g', calls), w) =>
              let (a, timers) := deliver calls (app s) (closeTimers s) in
              MkSession a (Some g') timers w
          | (Throw _, w) => MkSession (app s) (game s) (closeTimers s) w
          end
      | _, _ => s
      end
  | ClickContinue =>
      match App.selectedConcept (app s), game s with
      | Some c, Some g =>
          runGame (LearningGame.handleNext c (App.concepts (app s)) g) (app s) s
      | _, _ => s
      end
  | ClickClose => close s
  | TimerFires =>
      match closeTimers s with
      | O => s
      | S n =>
          close (MkSession (app s) (game s) n (world s))
      end
  end.

(** The session after a sequence of events, oldest first, each handled to
    completion before the next. *)
Definition run (events : list Event) (s : Session) : Session :=
  fold_left (fun s e => step e s) events s.

(** The mastery levels of the collection, in order. *)
Definition levels (s : Session) : list Z :=
  map Concept.masteryLevel (App.concepts (app s)).

(** The counter of the host's header:
    [concepts.filter(c => c.masteryLevel === 4).length]. *)
Definition masteredCount (s : Session) : nat :=
  List.length
    (filter (fun c => Concept.masteryLevel c =? 4) (App.concepts (app s))).

End Session.

(** ** Vocabulary of the properties *)

(** An answer text that is empty or made of white space only. *)
Definition blank (s : JsString) : bool := forallb isWhiteSpace s.

(** The provider call of a service fails: the request is rejected, the
    response carries no text, or the text is not the JSON expected. *)
Definition callFails {A} (parse : JsString -> option A) (c : Completion) : bool :=
  match c with
  | Rejected => true
  | Fulfilled content =>
      match textOf content with
      | None => true
      | Some text =>
          match parse text with
          | None => true
          | Some _ => false
          end
      end
  end.

(** The concepts a list of host calls hands to [onUpdateConcept]. *)
Definition updates (calls : list HostCall) : list Concept.t :=
  flat_map
    (fun call =>
       match call with
       | onUpdateConcept updated => [updated]
       | setTimeoutOnClose _ => []
       end)
    calls.

(** [u] is [c] in everything but, possibly, its mastery level. *)
Definition sameButLevel (c u : Concept.t) : Prop :=
  Concept.id u = Concept.id c
  /\ Concept.title u = Concept.title c
  /\ Concept.description u = Concept.description c
  /\ Concept.dependencies u = Concept.dependencies c
  /\ Concept.mistakes u = Concept.mistakes c.

(** [u] is [c] in everything but, possibly, its mistakes. *)
Definition sameButMistakes (c u : Concept.t) : Prop :=
  Concept.id u = Concept.id c
  /\ Concept.title u = Concept.title c
  /\ Concept.description u = Concept.description c
  /\ Concept.dependencies u = Concept.dependencies c
  /\ Concept.masteryLevel u = Concept.masteryLevel c.



(** The sessions the program keeps itself in: every level is a member of
    the enum, concepts that share an id share their level, and the selected
    concept is at least as advanced as the entries of the collection it
    stands for. *)
Definition Coherent (s : Session) : Prop :=
  Forall (fun c => MasteryLevel.member (Concept.masteryLevel c))
    (App.concepts (app s))
  /\ (forall c d,
        In c (App.concepts (app s)) -> In d (App.concepts (app s)) ->
        Concept.id c = Concept.id d ->
        Concept.masteryLevel c = Concept.masteryLevel d)
  /\ match App.selectedConcept (app s) with
     | Some selected =>
         MasteryLevel.member (Concept.masteryLevel selected)
         /\ forall d,
              In d (App.concepts (app s)) ->
              Concept.id d = Concept.id selected ->
              Concept.masteryLevel d <= Concept.masteryLevel selected
     | None => True
     end.

(** The concept a submission hands back stands for the same concept and,
    when the level it started from is a member of the enum, is at a level of
    the enum that is not below it. *)
Definition Advances (c u : Concept.t) : Prop :=
  Concept.id u = Concept.id c
  /\ (MasteryLevel.member (Concept.masteryLevel c) ->
      Concept.masteryLevel c <= Concept.masteryLevel u
      /\ MasteryLevel.member (Concept.masteryLevel u)).

Section Generations.
Context {json : JsonReader} {env : Env}.
Variable concept : Concept.t.
Variable allConcepts : list Concept.t.

(** The question one more call of [generateQuestion] yields in world [w],
    and the world after it.  The call never throws ([generated_spec]
    below), so the second branch is never taken. *)
Definition generated (w : World) : Question.t * World :=
  match AiService.generateQuestion concept allConcepts w with
  | (Return q, w') => (q, w')
  | (Throw _, w') => (Service.fallbackQuestion concept, w')
  end.

(** [k] more calls of [generateQuestion], from the question in hand and
    the world it was generated in. *)
Fixpoint advance (k : nat) (qw : Question.t * World) : Question.t * World :=
  match k with
  | O => qw
  | S k' => generated (snd (advance k' qw))
  end.

(** The [k]-th re-request of a run of [handleNext] started in [w]; the
    0-th is the first request. *)
Definition attempt (k : nat) (w : World) : Question.t * World :=
  advance k (generated w).

End Generations.

(** The concepts one submission hands to the host. *)
Definition handedBack {json : JsonReader} {env : Env} (concept : Concept.t)
    (s : LearningGame.State) (w : World) : list Concept.t :=
  match LearningGame.handleSubmit concept s w with
  | (Return (_, calls), _) => updates calls
  | (Throw _, _) => []
  end.

(** What one submit call made on [c] leaves of it: the concept the call
    hands to the host, or [c] itself when the call hands back nothing. *)
Inductive AfterCall {json : JsonReader} {env : Env} (c : Concept.t)
  : Concept.t -> Prop :=
| handed (g : LearningGame.State) (w : World) (u : Concept.t) :
    In u (handedBack c g w) -> AfterCall c u
| kept : AfterCall c c.

(** What a sequence of submit calls leaves of [c], each call made on what
    the call before it left. *)
Inductive AfterCalls {json : JsonReader} {env : Env} (c : Concept.t)
  : Concept.t -> Prop :=
| noCall : AfterCalls c c
| oneMore (u v : Concept.t) :
    AfterCalls c u -> AfterCall u v -> AfterCalls c v.

(** ** A sample session, to run the statements on *)

Module Sample.

(** A reader for a provider that answers a question request with the
    question's text, and an evaluation request with "yes" or "no". *)
Definition reader : JsonReader := {|
  parseConcepts := fun _ => None;
  parseQuestion := fun text =>
    Some (QuestionData.Build None None text MULTIPLE_CHOICE None None);
  parseAssessment := fun text =>
    if strEqb text (str "yes") then
      Some (AssessmentResult.Build true (str "Well done.") None)
    else if strEqb text (str "no") then
      Some (AssessmentResult.Build false (str "Not quite.") None)
    else None
|}.

Definition environment : Env := {|
  VITE_AI_PROVIDER := Some (str "openai");
  VITE_OPENAI_API_KEY := Some (str "sk-sample");
  VITE_GEMINI_API_KEY := None
|}.

(** A world whose provider gives the listed answers, then rejects. *)
Definition world (answers : list Completion) : World :=
  MkWorld (fun n => nth n answers Rejected) []
    (fun n => str "uuid-" ++ [N.of_nat (48 + n)]) 0
    (fun n => 1700000000000 + Z.of_nat n) 0.

Definition says (text : string) : Completion := Fulfilled (Some (str text)).

Definition rawTcp : RawConcept.t :=
  RawConcept.Build (str "tcp") (str "TCP")
    (str "A reliable, ordered byte stream over IP") [].

Definition rawUdp : RawConcept.t :=
  RawConcept.Build (str "udp") (str "UDP")
    (str "Datagrams over IP, no delivery guarantee") [].

(** [tcp] as extraction leaves it: LOCKED, no mistake. *)
Definition tcp : Concept.t := Service.initialise rawTcp.
Definition udp : Concept.t := Service.initialise rawUdp.

Definition atLevel (l : Z) : Concept.t := Concept.withMasteryLevel tcp l.

(** A second concept that carries the id of [tcp]. *)
Definition tcpAgain : Concept.t :=
  Concept.Build (str "tcp") (str "TCP, again")
    (str "The same id on another entry") [] MasteryLevel.LOCKED [].

Definition asked : Question.t :=
  Question.Build (str "q-1") (str "tcp") (str "What does TCP guarantee?")
    SHORT_ANSWER None (Some (str "Reliable, ordered delivery")).

(** The game with [asked] on screen and [answer] typed in. *)
Definition answering (answer : JsString) : LearningGame.State :=
  LearningGame.MkState (Some asked) false answer None false [] false.

End Sample.

(** [after] is [before] with more at its end. *)
Definition Extends {A} (before after : list A) : Prop :=
  exists more, after = before ++ more.

(** The mistake lists of the collection, in order. *)
Definition ledgers (s : Session) : list (list MistakeRecord.t) :=
  map Concept.mistakes (App.concepts (app s)).

(** What the sessions keep true: the game is mounted
    exactly when a concept is selected, the selected concept is an element
    of the collection, and concepts that share an id share their level and
    their mistakes. *)
Definition InStep (s : Session) : Prop :=
  (game s = None <-> App.selectedConcept (app s) = None)
  /\ (forall c, App.selectedConcept (app s) = Some c ->
                In c (App.concepts (app s)))
  /\ (forall c d,
        In c (App.concepts (app s)) -> In d (App.concepts (app s)) ->
        Concept.id c = Concept.id d ->
        Concept.masteryLevel c = Concept.masteryLevel d
        /\ Concept.mistakes c = Concept.mistakes d).

(** The game has a question on screen and no call outstanding. *)
Definition Ready (g : LearningGame.State) : Prop :=
  LearningGame.currentQuestion g <> None
  /\ LearningGame.loading g = false
  /\ LearningGame.submitting g = false.

(** The sessions in step whose game, when mounted, is ready. *)
Definition Live (s : Session) : Prop :=
  InStep s /\ forall g, game s = Some g -> Ready g.

(** ** Content ingestion ([fileProcessing.ts]) *)

Module FileProcessing.

Inductive FileType : Type := PDF | PPTX | YOUTUBE | TEXT.

Record Metadata : Type := MkMetadata {
  title : option JsString;
  pageCount : option Z;
  duration : option JsString
}.

Record ProcessedContent : Type := MkContent {
  text : JsString;
  type : FileType;
  metadata : option Metadata
}.

(** A browser [File]: its name, and what awaiting [file.text()] gives. *)
Record File : Type := MkFile {
  name : JsString;
  read : Outcome JsString
}.

(** The class [[\x00-\x1F\x7F-\x9F]]. *)
Definition isControl (u : N) : bool :=
  (Z.of_N u <=? 0x1F) || ((0x7F <=? Z.of_N u) && (Z.of_N u <=? 0x9F)).

(** [.replace(/[\x00-\x1F\x7F-\x9F]/g, '')] *)
Definition removeControl (s : JsString) : JsString :=
  filter (fun u => negb (isControl u)) s.

(** [.replace(/\s+/g, ' ')]: every maximal run of white space becomes one
    space; [inRun] says that the code unit before was white space. *)
Fixpoint collapseSpaces (inRun : bool) (s : JsString) : JsString :=
  match s with
  | [] => []
  | u :: rest =>
      if isWhiteSpace u then
        if inRun then collapseSpaces true rest
        else 32%N :: collapseSpaces true rest
      else u :: collapseSpaces false rest
  end.

(** The cleaning both extractors apply to the file's text. *)
Definition cleanText (s : JsString) : JsString :=
  trim (collapseSpaces false (removeControl s)).


(** [s] without its prefix [p], when it has it. *)
Fixpoint dropPrefix (p s : JsString) : option JsString :=
  match p, s with
  | [], _ => Some s
  | x :: p', y :: s' => if N.eqb x y then dropPrefix p' s' else None
  | _ :: _, [] => None
  end.

(** The code units the class [[^&\n?#]] leaves out. *)
Definition endsId (u : N) : bool :=
  N.eqb u 38 || N.eqb u 10 || N.eqb u 63 || N.eqb u 35.

(** The greedy group [([^&\n?#]+)], from the start of [s]. *)
Fixpoint takeId (s : JsString) : JsString :=
  match s with
  | [] => []
  | u :: rest => if endsId u then [] else u :: takeId rest
  end.

(** The three alternatives of the first pattern, in order. *)
Definition markers : list JsString :=
  [str "youtube.com/watch?v="; str "youtu.be/"; str "youtube.com/embed/"].

(** The first alternative that matches at the start of [s], with a group
    that is not empty. *)
Fixpoint matchMarkers (ms : list JsString) (s : JsString) : option JsString :=
  match ms with
  | [] => None
  | m :: ms' =>
      match dropPrefix m s with
      | Some rest =>
          match takeId rest with
          | [] => matchMarkers ms' s
          | id => Some id
          end
      | None => matchMarkers ms' s
      end
  end.

(** [url.match(/(?:youtube\.com\/watch\?v=|youtu\.be\/|youtube\.com\/embed\/)([^&\n?#]+)/)]:
    the leftmost position where the pattern matches. *)
Fixpoint matchUrl (s : JsString) : option JsString :=
  match matchMarkers markers s with
  | Some id => Some id
  | None =>
      match s with
      | [] => None
      | _ :: rest => matchUrl rest
      end
  end.

(** The class [[a-zA-Z0-9_-]]. *)
Definition isIdChar (u : N) : bool :=
  let u := Z.of_N u in
  ((0x61 <=? u) && (u <=? 0x7A)) || ((0x41 <=? u) && (u <=? 0x5A))
  || ((0x30 <=? u) && (u <=? 0x39)) || (u =? 0x5F) || (u =? 0x2D).

(** [url.match(/^([a-zA-Z0-9_-]{11})$/)] *)
Definition matchBareId (s : JsString) : option JsString :=
  if (List.length s =? 11)%nat && forallb isIdChar s then Some s else None.

Definition extractYouTubeVideoId (url : JsString) : option JsString :=
  match matchUrl url with
  | Some id => Some id
  | None => matchBareId url
  end.

End FileProcessing.

(** ** The set-up screen ([SessionSetup.tsx]) *)

Module SessionSetup.

Record State : Type := MkState {
  inputText : JsString;
  youtubeUrl : JsString;
  isAnalyzing : bool;
  isProcessingFile : bool;
  error : option JsString;
  uploadedFiles : list JsString
}.

Definition initialState : State := MkState [] [] false false None [].

Definition setInputText (f : JsString -> JsString) (s : State) : State :=
  MkState (f (inputText s)) (youtubeUrl s) (isAnalyzing s) (isProcessingFile s)
    (error s) (uploadedFiles s).
Definition setYoutubeUrl (v : JsString) (s : State) : State :=
  MkState (inputText s) v (isAnalyzing s) (isProcessingFile s) (error s)
    (uploadedFiles s).
Definition setIsAnalyzing (v : bool) (s : State) : State :=
  MkState (inputText s) (youtubeUrl s) v (isProcessingFile s) (error s)
    (uploadedFiles s).
Definition setIsProcessingFile (v : bool) (s : State) : State :=
  MkState (inputText s) (youtubeUrl s) (isAnalyzing s) v (error s)
    (uploadedFiles s).
Definition setError (v : option JsString) (s : State) : State :=
  MkState (inputText s) (youtubeUrl s) (isAnalyzing s) (isProcessingFile s) v
    (uploadedFiles s).
Definition setUploadedFiles (f : list JsString -> list JsString) (s : State)
  : State :=
  MkState (inputText s) (youtubeUrl s) (isAnalyzing s) (isProcessingFile s)
    (error s) (f (uploadedFiles s)).

(** [a || b] on strings. *)
Definition orElse (a : option JsString) (b : JsString) : JsString :=
  match a with
  | Some x => if truthy x then x else b
  | None => b
  end.

(** [processed.metadata?.title] *)
Definition titleOf (processed : FileProcessing.ProcessedContent)
  : option JsString :=
  match FileProcessing.metadata processed with
  | Some m => FileProcessing.title m
  | None => None
  end.

(** The updater of the two upload handlers:
    [prev + separator + `# ${title}\n\n${text}`] with
    [separator = prev.trim() ? '\n\n---\n\n' : '']. *)
Definition appendContent (title text prev : JsString) : JsString :=
  let separator :=
    if truthy (trim prev) then [10; 10]%N ++ str "---" ++ [10; 10]%N else [] in
  prev ++ separator ++ (str "# " ++ title ++ [10; 10]%N ++ text).

Section Handlers.
Context {json : JsonReader} {env : Env}.

(** [handleAnalyze]; the second component is the argument of
    [onSessionStart] when it is called. *)
Definition handleAnalyze (s : State) : M (State * option (list Concept.t)) :=
  if negb (truthy (trim (inputText s))) then
    ret (setError (Some (str "Please add some content first.")) s, None)
  else
    let s := setIsAnalyzing true s in
    let s := setError None s in
    r <- tryCatch
           (concepts <- AiService.extractConceptsFromContent (inputText s) ;;
            if (List.length concepts =? 0)%nat then
              ret (setError
                     (Some (str "Could not extract any concepts. Try adding more detailed content."))
                     s, None)
            else ret (s, Some concepts))
           (fun _ =>
              ret (setError
                     (Some (str "Failed to analyze content. Please check your API key."))
                     s, None)) ;;
    ret (setIsAnalyzing false (fst r), snd r).

(** The two ingestion entry points of [fileProcessing.ts], as the handlers
    see them: a result, or an error with its message.  (The repository's
    [processYouTubeURL] throws only for a URL without a video id; when the
    transcript cannot be fetched it returns a placeholder as its result.) *)
Variable processFile :
  FileProcessing.File -> Outcome FileProcessing.ProcessedContent.
Variable processYouTubeURL :
  JsString -> Outcome FileProcessing.ProcessedContent.

(** [handleFileUpload], on [e.target.files?.[0]]. *)
Definition handleFileUpload (file : option FileProcessing.File) (s : State)
  : State :=
  match file with
  | None => s
  | Some file =>
      let s := setIsProcessingFile true s in
      let s := setError None s in
      let s :=
        match processFile file with
        | Return processed =>
            let s :=
              setInputText
                (appendContent (orElse (titleOf processed) (str "Uploaded Content"))
                   (FileProcessing.text processed)) s in
            setUploadedFiles
              (fun prev =>
                 prev ++ [orElse (titleOf processed) (FileProcessing.name file)])
              s
        | Throw message =>
            setError (Some (orElse (Some message) (str "Failed to process file"))) s
        end in
      setIsProcessingFile false s
  end.

Definition handleYouTubeSubmit (s : State) : State :=
  if negb (truthy (trim (youtubeUrl s))) then s
  else
    let s := setIsProcessingFile true s in
    let s := setError None s in
    let s :=
      match processYouTubeURL (youtubeUrl s) with
      | Return processed =>
          let s :=
            setInputText
              (appendContent (orElse (titleOf processed) (str "YouTube Video"))
                 (FileProcessing.text processed)) s in
          let s :=
            setUploadedFiles
              (fun prev =>
                 prev ++ [orElse (titleOf processed) (str "YouTube Video")])
              s in
          setYoutubeUrl [] s
      | Throw message =>
          let s :=
            setError
              (Some (orElse (Some message) (str "Failed to process YouTube URL")))
              s in
          setYoutubeUrl [] s
      end in
    setIsProcessingFile false s.

End Handlers.
End SessionSetup.

(** A string that does not start with white space. *)
Definition startsClean (s : JsString) : Prop :=
  match s with
  | [] => True
  | u :: _ => isWhiteSpace u = false
  end.

(** Every white space of [s] is a plain space that does not follow white
    space; [afterSpace] says that [s] itself follows white space. *)
Fixpoint singleSpaced (afterSpace : bool) (s : JsString) : bool :=
  match s with
  | [] => true
  | u :: rest =>
      if isWhiteSpace u then
        N.eqb u 32 && negb afterSpace && singleSpaced true rest
      else singleSpaced false rest
  end.

(** The text after a video id: nothing, or something that starts with one
    of the code units that end the id. *)
Definition endsIdAt (tail : JsString) : Prop :=
  match tail with
  | [] => True
  | u :: _ => FileProcessing.endsId u = true
  end.

(** * The note store ([supabaseService.ts]) *)

Module MasterySummary.
Record t : Type := Mk {
  total : nat;
  mastered : nat;
  concepts : list JsString
}.
End MasterySummary.

Module NoteData.
Record t : Type := Mk {
  title : JsString;
  content : JsString;
  concept_count : nat;
  mastery_summary : MasterySummary.t
}.
End NoteData.

Module SavedNote.
Record t : Type := Mk {
  id : JsString;
  user_id : JsString;
  title : JsString;
  content : JsString;
  concept_count : nat;
  mastery_summary : MasterySummary.t;
  created_at : JsString;
  updated_at : JsString
}.
End SavedNote.

Module Supabase.

(** The queries the service builds on the [saved_notes] table. *)
Inductive Query : Type :=
| Insert (userId : JsString) (noteData : NoteData.t)
| SelectByUser (userId : JsString)
| DeleteNote (noteId userId : JsString).

(** What awaiting a query gives: [{ data, error: null }], [{ error }], or an
    exception. *)
Inductive Reply (A : Type) : Type :=
| Resolved (data : A)
| Refused (error : JsString)
| Raised.
Arguments Resolved {A} data.
Arguments Refused {A} error.
Arguments Raised {A}.

(** The database as the service sees it: the reply to the query sent when
    [n] queries have been sent before, by kind of query, and the queries
    sent so far. *)
Record Db : Type := MkDb {
  onInsert : nat -> Reply SavedNote.t;
  onSelect : nat -> Reply (option (list SavedNote.t));
  onDelete : nat -> Reply unit;
  queries : list Query
}.

Definition tick (db : Db) : nat := List.length (queries db).

Definition sent (q : Query) (db : Db) : Db :=
  MkDb (onInsert db) (onSelect db) (onDelete db) (queries db ++ [q]).

(** [saveNote] *)
Definition saveNote (userId : JsString) (noteData : NoteData.t) (db : Db)
  : option SavedNote.t * Db :=
  (match onInsert db (tick db) with
   | Resolved data => Some data
   | Refused _ => None
   | Raised => None
   end,
   sent (Insert userId noteData) db).

(** [getUserNotes]; [(data as SavedNote[]) || []] *)
Definition getUserNotes (userId : JsString) (db : Db)
  : list SavedNote.t * Db :=
  (match onSelect db (tick db) with
   | Resolved (Some data) => data
   | Resolved None => []
   | Refused _ => []
   | Raised => []
   end,
   sent (SelectByUser userId) db).

(** [deleteNote] *)
Definition deleteNote (noteId userId : JsString) (db : Db) : bool * Db :=
  (match onDelete db (tick db) with
   | Resolved _ => true
   | Refused _ => false
   | Raised => false
   end,
   sent (DeleteNote noteId userId) db).

End Supabase.

(** * The summary screen ([SummaryView.tsx]) *)

Module SummaryView.

Record State : Type := MkState {
  summary : JsString;
  generating : bool;
  saving : bool;
  saved : bool;
  noteTitle : JsString
}.

Definition initialState : State := MkState [] true false false [].

Definition setSaving (v : bool) (s : State) : State :=
  MkState (summary s) (generating s) v (saved s) (noteTitle s).
Definition setSaved (v : bool) (s : State) : State :=
  MkState (summary s) (generating s) (saving s) v (noteTitle s).
Definition setNoteTitle (v : JsString) (s : State) : State :=
  MkState (summary s) (generating s) (saving s) (saved s) v.

(** The file handed to the browser by [handleDownload]. *)
Record Download : Type := MkDownload {
  fileName : JsString;
  contents : JsString
}.

Section Component.
(** [useUser().user], by its id, and the [concepts] prop. *)
Variable user : option JsString.
Variable concepts : list Concept.t.

(** [handleSaveToDatabase] *)
Definition handleSaveToDatabase (s : State) (db : Supabase.Db)
  : State * Supabase.Db :=
  match user with
  | None => (s, db)
  | Some userId =>
      if negb (truthy (summary s)) || saved s then (s, db)
      else
        let s := setSaving true s in
        let masteredCount :=
          List.length
            (filter
               (fun c => Concept.masteryLevel c =? MasteryLevel.REASONING)
               concepts) in
        let noteData :=
          NoteData.Mk (noteTitle s) (summary s) (List.length concepts)
            (MasterySummary.Mk (List.length concepts) masteredCount
               (map Concept.title concepts)) in
        let (result, db) := Supabase.saveNote userId noteData db in
        let s :=
          match result with
          | Some _ => setSaved true s
          | None => s
          end in
        (setSaving false s, db)
  end.

(** [handleDownload]: the note is saved first when it has not been. *)
Definition handleDownload (s : State) (db : Supabase.Db)
  : State * Supabase.Db * Download :=
  let (s', db') :=
    match user with
    | Some _ => if negb (saved s) then handleSaveToDatabase s db else (s, db)
    | None => (s, db)
    end in
  (s', db', MkDownload (noteTitle s ++ str ".md") (summary s)).

(** What the user does on the screen once the summary is there; each
    handler has completed before the next event. *)
Inductive Event : Type :=
| SaveClicked
| DownloadClicked
| TitleEdited (value : JsString).

Definition step (e : Event) (s : State) (db : Supabase.Db)
  : State * Supabase.Db :=
  match e with
  | SaveClicked => handleSaveToDatabase s db
  | DownloadClicked => fst (handleDownload s db)
  | TitleEdited value => (setNoteTitle value s, db)
  end.

Fixpoint run (events : list Event) (s : State) (db : Supabase.Db)
  : State * Supabase.Db :=
  match events with
  | [] => (s, db)
  | e :: rest => let (s', db') := step e s db in run rest s' db'
  end.

End Component.
End SummaryView.

(** * The saved notes ([MyNotes.tsx]) *)

Module MyNotes.

Record State : Type := MkState {
  notes : list SavedNote.t;
  loading : bool;
  selectedNote : option SavedNote.t;
  deleting : option JsString
}.

Definition initialState : State := MkState [] true None None.

Definition setNotes (v : list SavedNote.t) (s : State) : State :=
  MkState v (loading s) (selectedNote s) (deleting s).
Definition setLoading (v : bool) (s : State) : State :=
  MkState (notes s) v (selectedNote s) (deleting s).
Definition setSelectedNote (v : option SavedNote.t) (s : State) : State :=
  MkState (notes s) (loading s) v (deleting s).
Definition setDeleting (v : option JsString) (s : State) : State :=
  MkState (notes s) (loading s) (selectedNote s) v.

Section Component.
Variable user : option JsString.

(** [loadNotes] *)
Definition loadNotes (s : State) (db : Supabase.Db) : State * Supabase.Db :=
  match user with
  | None => (s, db)
  | Some userId =>
      let s := setLoading true s in
      let (userNotes, db) := Supabase.getUserNotes userId db in
      let s := setNotes userNotes s in
      (setLoading false s, db)
  end.

(** What a run of [handleDelete] takes with it over its [await]: the id,
    the [notes] and the [selectedNote] of the render it was clicked in, and
    the answer of the store. *)
Record Deletion : Type := MkDeletion {
  noteId : JsString;
  renderedNotes : list SavedNote.t;
  renderedSelection : option SavedNote.t;
  success : bool
}.

(** [handleDelete] up to its [await]; [confirmed] is the answer to the
    [confirm] dialog, which is shown only when there is a user.  [None]:
    the handler has returned at its guard. *)
Definition handleDeleteStart (confirmed : bool) (noteId : JsString)
    (s : State) (db : Supabase.Db) : State * Supabase.Db * option Deletion :=
  match user with
  | None => (s, db, None)
  | Some userId =>
      if negb confirmed then (s, db, None)
      else
        let rendered := s in
        let s := setDeleting (Some noteId) s in
        let (success, db) := Supabase.deleteNote noteId userId db in
        (s, db,
         Some (MkDeletion noteId (notes rendered) (selectedNote rendered)
                 success))
  end.

(** [handleDelete] from its [await] on, applied to the cells as they are
    when the store has answered: [notes] and [selectedNote] are read from
    the render the handler was clicked in, and the setters write what they
    are given. *)
Definition handleDeleteResume (d : Deletion) (s : State) : State :=
  let s :=
    if success d then
      let s :=
        setNotes
          (filter (fun n => negb (strEqb (SavedNote.id n) (noteId d)))
             (renderedNotes d)) s in
      match renderedSelection d with
      | Some n =>
          if strEqb (SavedNote.id n) (noteId d) then setSelectedNote None s
          else s
      | None => s
      end
    else s in
  setDeleting None s.

(** A run of [handleDelete] during which no other handler runs: the cells
    it resumes on are the ones it left at its [await]. *)
Definition handleDelete (confirmed : bool) (noteId : JsString) (s : State)
    (db : Supabase.Db) : State * Supabase.Db :=
  match handleDeleteStart confirmed noteId s db with
  | (s, db, Some d) => (handleDeleteResume d s, db)
  | (s, db, None) => (s, db)
  end.

End Component.
End MyNotes.

(** Sample notes and a store that accepts every query, to run the
    statements on. *)
Module SampleNotes.

Definition note (id : string) : SavedNote.t :=
  SavedNote.Mk (str id) (str "user-1") (str "Networking") (str "# Notes") 2
    (MasterySummary.Mk 2 1 [str "TCP"; str "UDP"])
    (str "2024-01-01T00:00:00Z") (str "2024-01-01T00:00:00Z").

Definition db : Supabase.Db :=
  Supabase.MkDb (fun _ => Supabase.Resolved (note "n0"))
    (fun _ => Supabase.Resolved (Some []))
    (fun _ => Supabase.Resolved tt) [].

(** The notes screen with three notes listed and none open. *)
Definition listed : MyNotes.State :=
  MyNotes.MkState [note "n1"; note "n2"; note "n3"] false None None.

End SampleNotes.

(** * Properties *)

(** ** Strings *)

Lemma strEqb_eq (a b : JsString) : strEqb a b = true <-> a = b.
Proof.
  revert b. induction a as [|x a IH]; intros [|y b]; simpl;
    try (split; [discriminate | discriminate]); try tauto.
  rewrite andb_true_iff, N.eqb_eq, IH.
  split; [intros [-> ->]; reflexivity | intros H; inversion H; auto].
Qed.

Lemma strEqb_refl (a : JsString) : strEqb a a = true.
Proof. apply strEqb_eq. reflexivity. Qed.

Lemma strEqb_neq (a b : JsString) : strEqb a b = false <-> a <> b.
Proof.
  rewrite <- strEqb_eq. destruct (strEqb a b); split; congruence.
Qed.

Lemma trimStart_blank (s : JsString) : blank s = true -> trimStart s = [].
Proof.
  induction s as [|u s IH]; simpl; [reflexivity|].
  intros H. apply andb_prop in H as [Hu Hs]. rewrite Hu. auto.
Qed.

Lemma trimStart_nil_iff (s : JsString) : trimStart s = [] <-> blank s = true.
Proof.
  split; [|apply trimStart_blank].
  induction s as [|u s IH]; simpl; [reflexivity|].
  destruct (isWhiteSpace u); [exact IH | discriminate].
Qed.

Lemma trimStart_idempotent (s : JsString) : trimStart (trimStart s) = trimStart s.
Proof.
  induction s as [|u s IH]; simpl; [reflexivity|].
  destruct (isWhiteSpace u) eqn:Hu; [exact IH | simpl; rewrite Hu; reflexivity].
Qed.

Lemma blank_rev (s : JsString) : blank (rev s) = blank s.
Proof.
  unfold blank. induction s as [|u s IH]; simpl; [reflexivity|].
  rewrite forallb_app, IH. simpl. rewrite andb_true_r. apply andb_comm.
Qed.

(** [trim] leaves nothing exactly of the blank strings. *)
Lemma trim_nil_iff (s : JsString) : trim s = [] <-> blank s = true.
Proof.
  unfold trim, trimEnd. split; [|intros H; rewrite (trimStart_blank s H); reflexivity].
  intros H. apply (f_equal (@rev N)) in H. rewrite rev_involutive in H. simpl in H.
  apply trimStart_nil_iff in H. rewrite blank_rev in H.
  apply trimStart_nil_iff in H. rewrite trimStart_idempotent in H.
  apply trimStart_nil_iff. exact H.
Qed.

Lemma truthy_trim (s : JsString) : truthy (trim s) = negb (blank s).
Proof.
  destruct (blank s) eqn:Hb.
  - apply trim_nil_iff in Hb. rewrite Hb. reflexivity.
  - destruct (trim s) eqn:Ht; [|reflexivity].
    apply trim_nil_iff in Ht. congruence.
Qed.

(** ** The services *)

Section ServiceProperties.
Context {json : JsonReader}.
Variable b : Backend.

Ltac run_service :=
  cbv beta iota zeta
    delta [tryCatch bind awaitProvider send jsonParse throw ret randomUUID].

Lemma evaluateAnswer_cases (question : Question.t) (answer : JsString)
    (concept : Concept.t) (w : World) :
  let sent :=
    logged (EvaluationRequest b (Service.levelTarget concept)
              (Question.text question) (Question.correctAnswerContext question)
              answer) w in
  (callFails parseAssessment (nextCompletion w) = true
   /\ Service.evaluateAnswer b question answer concept w
      = (Return Service.evaluationError, sent))
  \/ (exists text result,
        nextCompletion w = Fulfilled (Some text)
        /\ truthy text = true
        /\ parseAssessment text = Some result
        /\ Service.evaluateAnswer b question answer concept w
           = (Return result, sent)).
Proof.
  unfold Service.evaluateAnswer, callFails. run_service.
  destruct (nextCompletion w) as [|[text|]]; simpl; auto.
  destruct (truthy text) eqn:Ht; simpl; auto.
  destruct (parseAssessment text) as [result|] eqn:Hp; simpl; auto.
  right. exists text, result. auto.
Qed.

Lemma evaluateAnswer_returns (question : Question.t) (answer : JsString)
    (concept : Concept.t) (w : World) :
  exists result w',
    Service.evaluateAnswer b question answer concept w = (Return result, w').
Proof.
  destruct (evaluateAnswer_cases question answer concept w)
    as [[_ H] | (text & result & _ & _ & _ & H)]; eauto.
Qed.

Lemma generateQuestion_cases (concept : Concept.t) (allConcepts : list Concept.t)
    (w : World) :
  let sent :=
    logged (QuestionRequest b (Service.currentLevel concept)
              (Concept.title concept) (Concept.description concept)
              (Service.relatedConcepts concept allConcepts)) w in
  (callFails parseQuestion (nextCompletion w) = true
   /\ Service.generateQuestion b concept allConcepts w
      = (Return (Service.fallbackQuestion concept), sent))
  \/ (exists text data,
        nextCompletion w = Fulfilled (Some text)
        /\ truthy text = true
        /\ parseQuestion text = Some data
        /\ Service.generateQuestion b concept allConcepts w
           = (Return
                (Question.Build
                   (spreadOver (uuidSource w (uuidsDrawn w))
                      (QuestionData.id data))
                   (spreadOver (Concept.id concept)
                      (QuestionData.conceptId data))
                   (QuestionData.text data) (QuestionData.type data)
                   (QuestionData.options data)
                   (QuestionData.correctAnswerContext data)),
              MkWorld (provider sent) (requests sent) (uuidSource sent)
                (S (uuidsDrawn sent)) (clock sent) (clockReads sent))).
Proof.
  unfold Service.generateQuestion, callFails. run_service.
  destruct (nextCompletion w) as [|[text|]]; simpl; auto.
  destruct (truthy text) eqn:Ht; simpl; auto.
  destruct (parseQuestion text) as [data|] eqn:Hp; simpl; auto.
  right. exists text, data. auto.
Qed.

Lemma generateQuestion_returns (concept : Concept.t)
    (allConcepts : list Concept.t) (w : World) :
  exists q w',
    Service.generateQuestion b concept allConcepts w = (Return q, w')
    /\ List.length (requests w') = S (List.length (requests w)).
Proof.
  destruct (generateQuestion_cases concept allConcepts w)
    as [[_ H] | (text & data & _ & _ & _ & H)];
    rewrite H; do 2 eexists; (split; [reflexivity|]);
    simpl; rewrite length_app; simpl; lia.
Qed.

(** Extraction only ever yields concepts at LOCKED with no mistake. *)
Lemma extractConceptsFromContent_initialises (content : JsString) (w w' : World)
    (concepts : list Concept.t) :
  Service.extractConceptsFromContent b content w = (Return concepts, w') ->
  exists raw, concepts = map Service.initialise raw.
Proof.
  unfold Service.extractConceptsFromContent.
  destruct (truthy (trim content)); cbn [negb]; cbv iota.
  - run_service.
    destruct (nextCompletion w) as [|response]; [discriminate|].
    destruct (textOf response) as [text|];
      [|intros [= <- _]; exists []; reflexivity].
    destruct (parseConcepts text) as [[items|[items|]]|]; destruct b;
      try discriminate; intros [= <- _];
      first [exists items; reflexivity | exists []; reflexivity].
  - intros [= <- _]. exists []. reflexivity.
Qed.

(** A summary of at least one concept costs exactly one request. *)
Lemma generateUnifiedSummary_contacts_provider (c : Concept.t)
    (concepts : list Concept.t) (w : World) :
  exists summary,
    Service.generateUnifiedSummary b (c :: concepts) w
    = (Return summary,
       logged (SummaryRequest b (Service.conceptData (c :: concepts))) w).
Proof.
  unfold Service.generateUnifiedSummary.
  change (List.length (c :: concepts) =? 0)%nat with false. run_service.
  destruct (nextCompletion w); eexists; reflexivity.
Qed.

End ServiceProperties.

(** ** The game's handlers *)

Section GameProperties.
Context {json : JsonReader} {env : Env}.

Ltac run_handler :=
  cbv beta iota zeta
    delta [tryCatch bind throw ret randomUUID dateNow].

(** A submission without a question on screen, or with a blank answer,
    returns at once. *)
Lemma handleSubmit_guard (concept : Concept.t) (s : LearningGame.State) (w : World) :
  LearningGame.currentQuestion s = None \/ blank (LearningGame.userAnswer s) = true ->
  LearningGame.handleSubmit concept s w = (Return (s, []), w).
Proof.
  intros H. unfold LearningGame.handleSubmit.
  destruct (LearningGame.currentQuestion s) as [q|]; [|reflexivity].
  destruct H as [H|H]; [discriminate|].
  rewrite truthy_trim, H. reflexivity.
Qed.

(** What a submission does once the evaluation [result] is in. *)
Lemma handleSubmit_evaluated (concept : Concept.t) (s : LearningGame.State)
    (w w1 : World) (question : Question.t) (result : AssessmentResult.t) :
  LearningGame.currentQuestion s = Some question ->
  blank (LearningGame.userAnswer s) = false ->
  AiService.evaluateAnswer question (LearningGame.userAnswer s) concept w
  = (Return result, w1) ->
  let answered retry :=
    LearningGame.MkState (Some question) (LearningGame.loading s)
      (LearningGame.userAnswer s) (Some result) false
      (LearningGame.questionHistory s ++ [Question.text question]) retry in
  LearningGame.handleSubmit concept s w =
  if AssessmentResult.isCorrect result then
    if Service.currentLevel concept <? MasteryLevel.REASONING then
      (Return (answered false,
               [onUpdateConcept
                  (Concept.withMasteryLevel concept
                     (Z.min (Service.currentLevel concept + 1)
                        MasteryLevel.REASONING))]), w1)
    else
      (Return (answered false,
               [onUpdateConcept
                  (Concept.withMasteryLevel concept MasteryLevel.REASONING);
                setTimeoutOnClose 2000]), w1)
  else
    (Return (answered true,
             [onUpdateConcept
                (Concept.withMistakes concept
                   (Concept.mistakes concept
                    ++ [LearningGame.newMistake (uuidSource w1 (uuidsDrawn w1))
                          (clock w1 (clockReads w1)) question
                          (LearningGame.userAnswer s) result]))]),
     MkWorld (provider w1) (requests w1) (uuidSource w1) (S (uuidsDrawn w1))
       (clock w1) (S (clockReads w1))).
Proof.
  intros Hq Hb He. unfold LearningGame.handleSubmit.
  rewrite Hq, truthy_trim, Hb. cbn [negb]. run_handler. rewrite He.
  destruct s as [current ? ? ? ? ? ?]. simpl in Hq. subst current. unfold Service.currentLevel.
  destruct (AssessmentResult.isCorrect result); [|reflexivity].
  destruct (_ <? MasteryLevel.REASONING); reflexivity.
Qed.

(** C2 -- [submit] applies the transition rule of the mastery state
    machine.  With [L] the concept's effective level (LOCKED counted as 1):
    a correct result with [L < REASONING] hands the host one concept and
    nothing else, whose mastery level is [min (L + 1) REASONING] and whose
    other fields are the concept's; a correct result with [L = REASONING]
    hands it one concept whose mastery level is REASONING and whose other
    fields are the concept's, and schedules [onClose], the mastery-complete
    signal; an incorrect result sets [needsRetry] and hands the host one
    concept at the concept's unchanged level. *)
Theorem submit_applies_transition_rule (concept : Concept.t)
    (s : LearningGame.State) (w w1 : World) (question : Question.t)
    (result : AssessmentResult.t) :
  LearningGame.currentQuestion s = Some question ->
  blank (LearningGame.userAnswer s) = false ->
  AiService.evaluateAnswer question (LearningGame.userAnswer s) concept w
  = (Return result, w1) ->
  let L := Service.currentLevel concept in
  exists s' calls w',
    LearningGame.handleSubmit concept s w = (Return (s', calls), w')
    /\ (AssessmentResult.isCorrect result = true -> L < MasteryLevel.REASONING ->
        exists u,
          calls = [onUpdateConcept u]
          /\ Concept.masteryLevel u = Z.min (L + 1) MasteryLevel.REASONING
          /\ sameButLevel concept u)
    /\ (AssessmentResult.isCorrect result = true -> L = MasteryLevel.REASONING ->
        exists u,
          calls = [onUpdateConcept u; setTimeoutOnClose 2000]
          /\ Concept.masteryLevel u = MasteryLevel.REASONING
          /\ sameButLevel concept u)
    /\ (AssessmentResult.isCorrect result = false ->
        LearningGame.needsRetry s' = true
        /\ exists u,
             calls = [onUpdateConcept u]
             /\ Concept.masteryLevel u = Concept.masteryLevel concept).
Proof.
  intros Hq Hb He L.
  rewrite (handleSubmit_evaluated concept s w w1 question result Hq Hb He).
  destruct (AssessmentResult.isCorrect result).
  - subst L.
    destruct (Service.currentLevel concept <? MasteryLevel.REASONING) eqn:Hlt;
      [apply Z.ltb_lt in Hlt | apply Z.ltb_ge in Hlt];
      do 3 eexists; (split; [reflexivity|]);
      (split; [|split]); try discriminate; intros Hc HL;
      try (exfalso; lia);
      eexists; (split; [reflexivity|]); (split; [reflexivity|]);
      repeat split.
  - do 3 eexists. split; [reflexivity|].
    split; [discriminate|]. split; [discriminate|].
    intros _. split; [reflexivity|].
    eexists. split; [reflexivity|]. reflexivity.
Qed.

(** C3 (amended) -- for a concept at LOCKED, one correct answer hands the
    host the concept at UNDERSTANDING (2): LOCKED stands for level 1, and a
    correct answer at level 1 advances to level 2. *)
Theorem locked_correct_reaches_understanding (concept : Concept.t)
    (s : LearningGame.State) (w w1 : World) (question : Question.t)
    (result : AssessmentResult.t) :
  Concept.masteryLevel concept = MasteryLevel.LOCKED ->
  LearningGame.currentQuestion s = Some question ->
  blank (LearningGame.userAnswer s) = false ->
  AiService.evaluateAnswer question (LearningGame.userAnswer s) concept w
  = (Return result, w1) ->
  AssessmentResult.isCorrect result = true ->
  exists s',
    LearningGame.handleSubmit concept s w
    = (Return (s', [onUpdateConcept
                      (Concept.withMasteryLevel concept
                         MasteryLevel.UNDERSTANDING)]), w1).
Proof.
  intros Hl Hq Hb He Hc.
  rewrite (handleSubmit_evaluated concept s w w1 question result Hq Hb He), Hc.
  unfold Service.currentLevel. rewrite Hl. simpl. eexists. reflexivity.
Qed.

(** C4 -- a submission whose result is incorrect hands the host the concept
    with exactly one new mistake, of category "Conceptual", after the
    mistakes already recorded, which stay as they were and in order; a
    submission whose result is correct hands it the concept with its
    mistakes untouched. *)
Theorem submit_appends_one_mistake_iff_incorrect (concept : Concept.t)
    (s : LearningGame.State) (w w1 : World) (question : Question.t)
    (result : AssessmentResult.t) :
  LearningGame.currentQuestion s = Some question ->
  blank (LearningGame.userAnswer s) = false ->
  AiService.evaluateAnswer question (LearningGame.userAnswer s) concept w
  = (Return result, w1) ->
  exists s' calls w',
    LearningGame.handleSubmit concept s w = (Return (s', calls), w')
    /\ if AssessmentResult.isCorrect result then
         map Concept.mistakes (updates calls) = [Concept.mistakes concept]
       else
         exists m,
           map Concept.mistakes (updates calls)
           = [Concept.mistakes concept ++ [m]]
           /\ MistakeRecord.misunderstandingType m = str "Conceptual"
           /\ MistakeRecord.question m = Question.text question
           /\ MistakeRecord.userAnswer m = LearningGame.userAnswer s
           /\ MistakeRecord.correction m = AssessmentResult.explanation result.
Proof.
  intros Hq Hb He.
  rewrite (handleSubmit_evaluated concept s w w1 question result Hq Hb He).
  destruct (AssessmentResult.isCorrect result).
  - destruct (_ <? _); do 3 eexists; split; reflexivity.
  - do 3 eexists. split; [reflexivity|].
    eexists. repeat split.
Qed.

(** C7 -- when the provider call of [evaluateAnswer] fails, the submission
    still gets the result [{isCorrect: false, explanation: <the fixed
    apology>}], shows it, and, the result being incorrect, hands the host
    one concept whose mistakes are the concept's mistakes followed by one
    new mistake, whose correction is that apology, and whose other fields,
    the mastery level among them, are the concept's. *)
Theorem failed_evaluation_still_records_a_mistake (concept : Concept.t)
    (s : LearningGame.State) (w : World) (question : Question.t) :
  LearningGame.currentQuestion s = Some question ->
  blank (LearningGame.userAnswer s) = false ->
  callFails parseAssessment (nextCompletion w) = true ->
  let apology :=
    AssessmentResult.Build false
      (str "An error occurred during evaluation. Please try again.") None in
  (exists w1,
     AiService.evaluateAnswer question (LearningGame.userAnswer s) concept w
     = (Return apology, w1))
  /\ exists s' u m w',
       LearningGame.handleSubmit concept s w
       = (Return (s', [onUpdateConcept u]), w')
       /\ Concept.mistakes u = Concept.mistakes concept ++ [m]
       /\ sameButMistakes concept u
       /\ LearningGame.assessment s' = Some apology
       /\ LearningGame.needsRetry s' = true
       /\ MistakeRecord.question m = Question.text question
       /\ MistakeRecord.userAnswer m = LearningGame.userAnswer s
       /\ MistakeRecord.correction m
          = str "An error occurred during evaluation. Please try again."
       /\ MistakeRecord.misunderstandingType m = str "Conceptual".
Proof.
  intros Hq Hb Hf apology.
  destruct (evaluateAnswer_cases AiService.selectedProvider question
              (LearningGame.userAnswer s) concept w)
    as [[_ He] | (text & result & Hn & Ht & Hp & _)].
  - fold (AiService.evaluateAnswer question (LearningGame.userAnswer s) concept w)
      in He.
    split; [eexists; exact He|].
    rewrite (handleSubmit_evaluated concept s w _ question _ Hq Hb He). simpl.
    do 4 eexists. split; [reflexivity|]. repeat split.
  - unfold callFails in Hf. rewrite Hn in Hf. simpl in Hf.
    rewrite Ht, Hp in Hf. discriminate.
Qed.

End GameProperties.

(** ** The next question *)

Section NextProperties.
Context {json : JsonReader} {env : Env}.
Variable concept : Concept.t.
Variable allConcepts : list Concept.t.

Lemma generated_spec (w : World) :
  AiService.generateQuestion concept allConcepts w
  = (Return (fst (generated concept allConcepts w)),
     snd (generated concept allConcepts w))
  /\ List.length (requests (snd (generated concept allConcepts w)))
     = S (List.length (requests w)).
Proof.
  unfold generated.
  destruct (generateQuestion_returns AiService.selectedProvider concept
              allConcepts w) as (q & w' & H & Hlen).
  fold (AiService.generateQuestion concept allConcepts w) in H.
  rewrite H. simpl. auto.
Qed.

Lemma advance_shift (k : nat) (qw : Question.t * World) :
  advance concept allConcepts k (generated concept allConcepts (snd qw))
  = advance concept allConcepts (S k) qw.
Proof.
  induction k as [|k IH]; simpl; [reflexivity|].
  rewrite IH. reflexivity.
Qed.

Lemma advance_requests (k : nat) (qw : Question.t * World) :
  List.length (requests (snd (advance concept allConcepts k qw)))
  = (List.length (requests (snd qw)) + k)%nat.
Proof.
  induction k as [|k IH]; simpl; [lia|].
  destruct (generated_spec (snd (advance concept allConcepts k qw))) as [_ H].
  rewrite H, IH. lia.
Qed.

(** The loop of [handleNext]: it stops after [k] re-requests, on the last
    question generated; each question it replaced was in the history, and
    it keeps a question of the history only when the bound is reached. *)
Lemma regenerate_spec (history : list JsString) (attempts : nat)
    (q : Question.t) (w : World) :
  (attempts <= LearningGame.maxAttempts)%nat ->
  exists k,
    (attempts + k <= LearningGame.maxAttempts)%nat
    /\ LearningGame.regenerate concept allConcepts history attempts q w
       = (Return (fst (advance concept allConcepts k (q, w))),
          snd (advance concept allConcepts k (q, w)))
    /\ (forall j, (j < k)%nat ->
          includes history
            (Question.text (fst (advance concept allConcepts j (q, w)))) = true)
    /\ (includes history
          (Question.text (fst (advance concept allConcepts k (q, w)))) = true ->
        (attempts + k)%nat = LearningGame.maxAttempts).
Proof.
  funelim (LearningGame.regenerate concept allConcepts history attempts q w).
  all: intros Hle.
  - (* the loop test fails: the question in hand is kept *)
    exists 0%nat. simpl. rewrite Nat.add_0_r.
    repeat split; [exact Hle | intros j Hj; lia |].
    intros Hin. pose proof e as Htest. rewrite Hin in Htest. simpl in Htest.
    apply Nat.ltb_ge in Htest. lia.
  - (* one more request, then the loop again *)
    destruct (andb_prop _ _ e) as [Hin Hlt]. apply Nat.ltb_lt in Hlt.
    assert (Hgen : generated concept allConcepts w = (q, w'))
      by (unfold generated; rewrite Heq; reflexivity).
    match goal with
    | IH : (S attempts <= _)%nat -> _ |- _ =>
        destruct (IH Hlt) as (k & Hk & Hrun & Hdup & Hlast)
    end.
    exists (S k).
    rewrite <- (advance_shift k (newQuestion, w)). simpl snd. rewrite Hgen.
    repeat split; [lia | exact Hrun | | intros Hl; apply Hlast in Hl; lia].
    intros [|j] Hj; [exact Hin|].
    rewrite <- (advance_shift j (newQuestion, w)). simpl snd. rewrite Hgen.
    apply Hdup. lia.
  - (* generation never throws *)
    destruct (generated_spec w) as [Hret _]. congruence.
Qed.

(** C5 -- [next] asks for a question and, while the question in hand is in
    the session's history, asks again, at most 5 times; it shows the last
    question generated.  So with [k] the number of re-requests: [k <= 5],
    [k + 1] requests went out, every question that was replaced was in the
    history, and the question shown is in the history only when [k = 5],
    that is when the first question and all 5 regenerated ones were. *)
Theorem next_retries_duplicates_at_most_five_times (s : LearningGame.State)
    (w : World) :
  exists k,
    (k <= 5)%nat
    /\ LearningGame.handleNext concept allConcepts s w
       = (Return
            (LearningGame.MkState
               (Some (fst (attempt concept allConcepts k w))) false [] None
               (LearningGame.submitting s) (LearningGame.questionHistory s)
               (LearningGame.needsRetry s)),
          snd (attempt concept allConcepts k w))
    /\ List.length (requests (snd (attempt concept allConcepts k w)))
       = (List.length (requests w) + 1 + k)%nat
    /\ (forall j, (j < k)%nat ->
          includes (LearningGame.questionHistory s)
            (Question.text (fst (attempt concept allConcepts j w))) = true)
    /\ (includes (LearningGame.questionHistory s)
          (Question.text (fst (attempt concept allConcepts k w))) = true ->
        k = 5%nat).
Proof.
  destruct (generated_spec w) as [Hgen Hlen].
  destruct (regenerate_spec (LearningGame.questionHistory s) 0
              (fst (generated concept allConcepts w))
              (snd (generated concept allConcepts w)))
    as (k & Hk & Hrun & Hdup & Hlast);
    [unfold LearningGame.maxAttempts; lia|].
  rewrite <- surjective_pairing in Hrun, Hdup, Hlast.
  exists k. unfold attempt.
  repeat split; [exact Hk | | | exact Hdup | exact Hlast].
  - unfold LearningGame.handleNext.
    cbv beta iota zeta delta [bind ret]. rewrite Hgen.
    simpl LearningGame.questionHistory. rewrite Hrun. reflexivity.
  - rewrite advance_requests, Hlen. lia.
Qed.

End NextProperties.

(** ** Fallbacks of the services *)

Section Fallbacks.
Context {json : JsonReader}.

(** C6 -- when the provider call of [generateQuestion] fails (the request
    is rejected, the response is empty, or it is not the JSON expected),
    either service still returns a question: its text is "Explain the
    concept of " followed by the concept's title, its type SHORT_ANSWER, its
    correctness context the concept's description, its id "error". *)
Theorem failed_generation_yields_the_fallback_question (b : Backend)
    (concept : Concept.t) (allConcepts : list Concept.t) (w : World) :
  callFails parseQuestion (nextCompletion w) = true ->
  exists w',
    Service.generateQuestion b concept allConcepts w
    = (Return
         (Question.Build (str "error") (Concept.id concept)
            (str "Explain the concept of " ++ Concept.title concept)
            SHORT_ANSWER None (Some (Concept.description concept))),
       w').
Proof.
  intros Hf.
  destruct (generateQuestion_cases b concept allConcepts w)
    as [[_ H] | (text & data & Hn & Ht & Hp & _)].
  - eexists. exact H.
  - unfold callFails in Hf. rewrite Hn in Hf. simpl in Hf.
    rewrite Ht, Hp in Hf. discriminate.
Qed.

(** C8 -- on an empty concept list either summary generator returns the
    fixed string "No concepts to summarize." and leaves the world as it
    was: no request goes to the provider. *)
Theorem empty_summary_needs_no_provider (b : Backend) (w : World) :
  Service.generateUnifiedSummary b [] w
  = (Return (str "No concepts to summarize."), w).
Proof. reflexivity. Qed.

End Fallbacks.

(** ** The concept collection *)

Lemma updateConcept_nth (updated : Concept.t) (a : App.State) (i : nat) :
  nth_error (App.concepts (App.updateConcept updated a)) i
  = option_map
      (fun c => if strEqb (Concept.id c) (Concept.id updated) then updated else c)
      (nth_error (App.concepts a) i).
Proof. simpl. apply nth_error_map. Qed.

(** C10 -- [updateConcept] keeps the collection's length; at every position
    a concept whose id differs from the updated concept's id stays exactly
    as it was, and a concept whose id matches is replaced by the updated
    concept. *)
Theorem updateConcept_replaces_by_id_only (updated : Concept.t) (a : App.State) :
  List.length (App.concepts (App.updateConcept updated a))
  = List.length (App.concepts a)
  /\ forall i c,
       nth_error (App.concepts a) i = Some c ->
       (Concept.id c <> Concept.id updated ->
        nth_error (App.concepts (App.updateConcept updated a)) i = Some c)
       /\ (Concept.id c = Concept.id updated ->
           nth_error (App.concepts (App.updateConcept updated a)) i
           = Some updated).
Proof.
  split; [simpl; apply length_map|].
  intros i c Hc. rewrite updateConcept_nth, Hc. simpl.
  split; intros Hid.
  - apply strEqb_neq in Hid. rewrite Hid. reflexivity.
  - apply strEqb_eq in Hid. rewrite Hid. reflexivity.
Qed.

(** ** The concept map *)

Lemma findById_some (concepts : list Concept.t) (id : JsString) (c : Concept.t) :
  ConceptMap.findById concepts id = Some c ->
  In c concepts /\ Concept.id c = id.
Proof.
  intros H. apply find_some in H as [Hin Heq].
  split; [exact Hin | apply strEqb_eq; exact Heq].
Qed.

Lemma findById_member (concepts : list Concept.t) (d : Concept.t) :
  In d concepts ->
  exists c, ConceptMap.findById concepts (Concept.id d) = Some c.
Proof.
  intros Hin. unfold ConceptMap.findById.
  destruct (find _ concepts) as [c|] eqn:Hf; [eauto|].
  pose proof (find_none _ _ Hf d Hin) as Hno. simpl in Hno.
  rewrite strEqb_refl in Hno. discriminate.
Qed.

Lemma findById_unique (concepts : list Concept.t) (d : Concept.t) :
  NoDup (map Concept.id concepts) ->
  In d concepts ->
  ConceptMap.findById concepts (Concept.id d) = Some d.
Proof.
  unfold ConceptMap.findById.
  induction concepts as [|c concepts IH]; intros Hnd Hin; [contradiction|].
  simpl in *. inversion Hnd as [|? ? Hnotin Hnd']; subst.
  destruct Hin as [->|Hin]; [rewrite strEqb_refl; reflexivity|].
  destruct (strEqb (Concept.id c) (Concept.id d)) eqn:E; [|auto].
  apply strEqb_eq in E. exfalso. apply Hnotin. rewrite E.
  apply in_map. exact Hin.
Qed.

(** ** Sessions *)

Section SessionProperties.
Context {json : JsonReader} {env : Env}.

Lemma handleSubmit_calls (c : Concept.t) (g : LearningGame.State) (w : World) :
  exists g' calls w',
    LearningGame.handleSubmit c g w = (Return (g', calls), w')
    /\ (calls = []
        \/ exists u,
             Advances c u
             /\ (calls = [onUpdateConcept u]
                 \/ calls = [onUpdateConcept u; setTimeoutOnClose 2000])).
Proof.
  destruct (LearningGame.currentQuestion g) as [q|] eqn:Hq;
    [|rewrite handleSubmit_guard by auto; eauto 6].
  destruct (blank (LearningGame.userAnswer g)) eqn:Hb;
    [rewrite handleSubmit_guard by auto; eauto 6|].
  destruct (evaluateAnswer_returns AiService.selectedProvider q
              (LearningGame.userAnswer g) c w) as (r & w1 & He).
  fold (AiService.evaluateAnswer q (LearningGame.userAnswer g) c w) in He.
  rewrite (handleSubmit_evaluated c g w w1 q r Hq Hb He).
  unfold Advances, Service.currentLevel, MasteryLevel.member,
    MasteryLevel.LOCKED, MasteryLevel.REASONING.
  destruct (AssessmentResult.isCorrect r).
  - destruct (Z.eqb_spec (Concept.masteryLevel c) 0) as [Hz|Hz];
      match goal with |- context [?x <? 4] => destruct (Z.ltb_spec x 4) end;
      do 3 eexists; (split; [reflexivity|]); right; eexists;
      (split; [|auto]); split; simpl; try reflexivity; lia.
  - do 3 eexists. split; [reflexivity|]. right. eexists.
    split; [|auto]. split; simpl; [reflexivity | lia].
Qed.

Lemma update_levels (u : Concept.t) (cs : list Concept.t) :
  (forall d, In d cs -> Concept.id d = Concept.id u ->
             Concept.masteryLevel d <= Concept.masteryLevel u) ->
  Forall2 Z.le (map Concept.masteryLevel cs)
    (map Concept.masteryLevel
       (map (fun c => if strEqb (Concept.id c) (Concept.id u) then u else c) cs)).
Proof.
  induction cs as [|d cs IH]; intros H; simpl; constructor.
  - destruct (strEqb (Concept.id d) (Concept.id u)) eqn:E; [|lia].
    apply H; [left; reflexivity | apply strEqb_eq; exact E].
  - apply IH. intros d' Hd'. apply H. right. exact Hd'.
Qed.

Lemma levels_refl (s : Session) : Forall2 Z.le (levels s) (levels s).
Proof. unfold levels. induction (App.concepts (app s)); simpl; constructor; auto; lia. Qed.

(** Handing the host a concept that advances the selected one keeps the
    session coherent and lowers no level. *)
Lemma update_coherent (s : Session) (c u : Concept.t)
    (g : option LearningGame.State) (n : nat) (w : World) :
  Coherent s ->
  App.selectedConcept (app s) = Some c ->
  Advances c u ->
  let s' := MkSession (App.updateConcept u (app s)) g n w in
  Coherent s' /\ Forall2 Z.le (levels s) (levels s')
  /\ App.selectedConcept (app s') = Some u
  /\ Concept.masteryLevel c <= Concept.masteryLevel u.
Proof.
  intros (Hmem & Hsame & Hsel) Hc [Hid Hadv]. rewrite Hc in Hsel.
  destruct Hsel as [Hcm Hsync]. destruct (Hadv Hcm) as [Hle Hum].
  assert (Hrepl : forall d,
             Concept.id (if strEqb (Concept.id d) (Concept.id u) then u else d)
             = Concept.id d).
  { intros d. destruct (strEqb _ _) eqn:E; [|reflexivity].
    apply strEqb_eq in E. congruence. }
  simpl. unfold Coherent, levels. simpl. rewrite Hc.
  assert (Hcu : strEqb (Concept.id c) (Concept.id u) = true)
    by (apply strEqb_eq; congruence).
  rewrite Hcu. split; [split; [|split; [|split; [exact Hum|]]]|].
  - apply Forall_map. eapply Forall_impl; [|exact Hmem].
    intros d Hd. simpl.
    destruct (strEqb (Concept.id d) (Concept.id u)); assumption.
  - intros c1 c2 H1 H2 Heq.
    apply in_map_iff in H1 as (d1 & <- & H1).
    apply in_map_iff in H2 as (d2 & <- & H2).
    rewrite !Hrepl in Heq.
    destruct (strEqb (Concept.id d1) (Concept.id u)) eqn:E1;
      rewrite <- Heq, E1; auto.
  - intros d' Hd' Heq. apply in_map_iff in Hd' as (d & <- & Hd).
    rewrite Hrepl in Heq. apply strEqb_eq in Heq. rewrite Heq. lia.
  - split; [|split; [reflexivity | exact Hle]].
    apply update_levels. intros d Hd Heq.
    specialize (Hsync d Hd). rewrite Heq, Hid in Hsync.
    specialize (Hsync eq_refl). lia.
Qed.

Lemma Coherent_app (s s' : Session) : app s' = app s -> Coherent s -> Coherent s'.
Proof. unfold Coherent. intros ->. auto. Qed.

Lemma Coherent_select (s s' : Session) (sel : option Concept.t) :
  app s' = App.setSelectedConcept sel (app s) ->
  (forall c, sel = Some c -> In c (App.concepts (app s))) ->
  Coherent s ->
  Coherent s' /\ levels s' = levels s.
Proof.
  intros Happ Hin (Hmem & Hsame & _). unfold Coherent, levels. rewrite Happ. simpl.
  repeat split; auto.
  destruct sel as [c|]; [|exact I].
  specialize (Hin c eq_refl). split.
  - rewrite Forall_forall in Hmem. apply Hmem. exact Hin.
  - intros d Hd Hid. rewrite (Hsame d c Hd Hin Hid). lia.
Qed.

Lemma runGame_app (m : M LearningGame.State) (a : App.State) (s : Session) :
  app (runGame m a s) = a.
Proof. unfold runGame. destruct (m (world s)) as [[g|e] w]; reflexivity. Qed.

Lemma selectConcept_app (c : Concept.t) (s : Session) :
  app (selectConcept c s) = App.setSelectedConcept (Some c) (app s).
Proof.
  unfold selectConcept.
  destruct (App.selectedConcept (app s)) as [old|];
    [destruct (game s) as [g|]; [destruct (strEqb _ _)|]|];
    try apply runGame_app; reflexivity.
Qed.

(** A click on a node changes nothing or selects a concept of the
    collection. *)
Lemma selectNode_cases (i : nat) (s : Session) :
  selectNode i s = s
  \/ exists c,
       In c (App.concepts (app s)) /\ selectNode i s = selectConcept c s.
Proof.
  unfold selectNode, ConceptMap.clicked.
  destruct (nth_error (App.concepts (app s)) i) as [d|]; [|auto].
  destruct (ConceptMap.findById _ _) as [c|] eqn:Hc; [|auto].
  right. exists c. split; [apply (findById_some _ _ _ Hc) | reflexivity].
Qed.

(** What a click on Submit does to the host. *)
Lemma submit_cases (s : Session) :
  app (step ClickSubmit s) = app s
  \/ exists c u,
       App.selectedConcept (app s) = Some c
       /\ Advances c u
       /\ app (step ClickSubmit s) = App.updateConcept u (app s).
Proof.
  simpl. destruct (App.selectedConcept (app s)) as [c|] eqn:Hc; [|auto].
  destruct (game s) as [g|]; [|auto].
  destruct (handleSubmit_calls c g (world s))
    as (g' & calls & w' & Hrun & [-> | (u & Hadv & [-> | ->])]);
    rewrite Hrun; simpl; [auto | right; eauto | right; eauto].
Qed.

(** Every step keeps the session coherent and lowers no level. *)
Lemma step_coherent (e : Event) (s : Session) :
  Coherent s ->
  Coherent (step e s) /\ Forall2 Z.le (levels s) (levels (step e s)).
Proof.
  intros Hs.
  assert (Hkeep : forall s', app s' = app s ->
            Coherent s' /\ Forall2 Z.le (levels s) (levels s')).
  { intros s' H. split; [eapply Coherent_app; eauto|].
    unfold levels. rewrite H. apply levels_refl. }
  assert (Hsel : forall s' sel,
            app s' = App.setSelectedConcept sel (app s) ->
            (forall c, sel = Some c -> In c (App.concepts (app s))) ->
            Coherent s' /\ Forall2 Z.le (levels s) (levels s')).
  { intros s' sel H Hin.
    destruct (Coherent_select s s' sel H Hin Hs) as [Hc Hl].
    split; [exact Hc|]. rewrite Hl. apply levels_refl. }
  destruct e as [i|answer| | | |].
  - change (step (SelectNode i) s) with (selectNode i s).
    destruct (selectNode_cases i s) as [-> | (c & Hin & ->)].
    + apply Hkeep. reflexivity.
    + apply (Hsel _ (Some c)); [apply selectConcept_app|].
      intros c' [= <-]. exact Hin.
  - apply Hkeep. simpl. destruct (game s); reflexivity.
  - destruct (submit_cases s) as [H | (c & u & Hc & Hadv & H)].
    + apply Hkeep. exact H.
    + destruct (update_coherent s c u None 0 (world s) Hs Hc Hadv)
        as (Hco & Hle & _).
      split; [eapply Coherent_app; [|exact Hco]; exact H|].
      unfold levels in *. rewrite H. exact Hle.
  - apply Hkeep. simpl.
    destruct (App.selectedConcept (app s)); [|reflexivity].
    destruct (game s); [apply runGame_app | reflexivity].
  - apply (Hsel _ None); [reflexivity | discriminate].
  - simpl. destruct (closeTimers s); [apply Hkeep; reflexivity|].
    apply (Hsel _ None); [reflexivity | discriminate].
Qed.

Lemma run_coherent (events : list Event) (s : Session) :
  Coherent s -> Coherent (run events s).
Proof.
  revert s. induction events as [|e events IH]; intros s Hs; simpl; [exact Hs|].
  apply IH. apply step_coherent. exact Hs.
Qed.

(** A session started on freshly extracted concepts is coherent. *)
Lemma start_coherent (raw : list RawConcept.t) (w : World) :
  Coherent (start (map Service.initialise raw) w).
Proof.
  unfold Coherent. simpl. repeat split; auto.
  - apply Forall_map. apply Forall_forall. intros c _. simpl.
    unfold MasteryLevel.member, MasteryLevel.LOCKED, MasteryLevel.REASONING. lia.
  - intros c d Hc Hd _.
    apply in_map_iff in Hc as (c0 & <- & _).
    apply in_map_iff in Hd as (d0 & <- & _). reflexivity.
Qed.


(** How the host threads the concept through the calls: with the handlers
    run one after the other, the selection a click on Submit leaves, which
    is the [concept] prop of the next call, is what the call handed back,
    or the concept it was made on when it handed back nothing. *)
Lemma submit_threads_the_concept (s : Session) (c : Concept.t)
    (g : LearningGame.State) :
  App.selectedConcept (app s) = Some c ->
  game s = Some g ->
  exists u,
    App.selectedConcept (app (step ClickSubmit s)) = Some u /\ AfterCall c u.
Proof.
  intros Hc Hg. simpl. rewrite Hc, Hg.
  pose proof (handed c g (world s)) as Hhanded. unfold handedBack in Hhanded.
  destruct (handleSubmit_calls c g (world s))
    as (g' & calls & w' & Hrun & [-> | (u & [Hid _] & [-> | ->])]);
    rewrite Hrun in *; simpl in *.
  - exists c. split; [exact Hc | apply kept].
  - exists u. rewrite Hc.
    assert (E : strEqb (Concept.id c) (Concept.id u) = true)
      by (apply strEqb_eq; congruence).
    rewrite E. split; [reflexivity | apply Hhanded; left; reflexivity].
  - exists u. rewrite Hc.
    assert (E : strEqb (Concept.id c) (Concept.id u) = true)
      by (apply strEqb_eq; congruence).
    rewrite E. split; [reflexivity | apply Hhanded; left; reflexivity].
Qed.

Lemma handedBack_advances (concept : Concept.t) (g : LearningGame.State)
    (w : World) :
  Forall (Advances concept) (handedBack concept g w).
Proof.
  unfold handedBack.
  destruct (handleSubmit_calls concept g w)
    as (g' & calls & w' & Hrun & [-> | (u & Hadv & [-> | ->])]);
    rewrite Hrun; simpl;
    [apply Forall_nil | apply Forall_cons; [exact Hadv | apply Forall_nil]..].
Qed.

(** C1 -- the mastery level never decreases over a sequence of submit
    calls.  For a concept at a level of the enum: the concept one call
    hands to the host is at a level of the enum that is at or above the
    level of the concept the call was made on; when the answer is judged
    incorrect it is at that very level; and after any sequence of calls,
    each made on the concept as the call before it left it, the concept is
    at or above the level it started from. *)
Theorem mastery_level_never_decreases (concept : Concept.t) :
  MasteryLevel.member (Concept.masteryLevel concept) ->
  (forall g w,
     Forall (fun u => Concept.masteryLevel concept <= Concept.masteryLevel u
                      /\ MasteryLevel.member (Concept.masteryLevel u))
       (handedBack concept g w))
  /\ (forall g w question result w1,
        LearningGame.currentQuestion g = Some question ->
        blank (LearningGame.userAnswer g) = false ->
        AiService.evaluateAnswer question (LearningGame.userAnswer g)
          concept w
        = (Return result, w1) ->
        AssessmentResult.isCorrect result = false ->
        exists u,
          handedBack concept g w = [u]
          /\ Concept.masteryLevel u = Concept.masteryLevel concept)
  /\ (forall u,
        AfterCalls concept u ->
        Concept.masteryLevel concept <= Concept.masteryLevel u
        /\ MasteryLevel.member (Concept.masteryLevel u)).
Proof.
  intros Hm. split; [|split].
  - intros g w. eapply Forall_impl; [|apply handedBack_advances].
    intros u [_ Hadv]. apply Hadv. exact Hm.
  - intros g w question result w1 Hq Hb He Hc. unfold handedBack.
    rewrite (handleSubmit_evaluated concept g w w1 question result Hq Hb He).
    rewrite Hc. simpl. eexists. split; reflexivity.
  - intros u Hcalls. induction Hcalls as [|u v Hcalls IH Hcall].
    + split; [lia | exact Hm].
    + destruct IH as [Hle Hum]. destruct Hcall as [g w v Hin|].
      * pose proof (handedBack_advances u g w) as Hall.
        rewrite Forall_forall in Hall. destruct (Hall v Hin) as [_ Hadv].
        destruct (Hadv Hum) as [Huv Hvm]. split; [lia | exact Hvm].
      * split; [exact Hle | exact Hum].
Qed.

(** C9 -- a submission with an empty or white-space-only answer is a local
    no-op: the handler returns the game's cells as they were, calls the
    host for nothing (no mistake, no level) and leaves the world as it was
    (no request to the provider); the whole session is unchanged. *)
Theorem blank_submit_changes_nothing (s : Session) (g : LearningGame.State) :
  game s = Some g ->
  blank (LearningGame.userAnswer g) = true ->
  (forall concept w,
     LearningGame.handleSubmit concept g w = (Return (g, []), w))
  /\ step ClickSubmit s = s.
Proof.
  intros Hg Hb. split.
  - intros concept w. apply handleSubmit_guard. right. exact Hb.
  - simpl. destruct (App.selectedConcept (app s)) as [c|]; [|reflexivity].
    rewrite Hg, handleSubmit_guard by (right; exact Hb).
    simpl. destruct s; simpl in *; subst; reflexivity.
Qed.

(** The mastery-complete signal at work: a submission of a correct answer
    at REASONING arms a timer, and when a timer fires the selection is
    cleared and the game unmounted. *)
Lemma timer_closes_the_game (s : Session) (n : nat) :
  closeTimers s = S n ->
  App.selectedConcept (app (step TimerFires s)) = None
  /\ game (step TimerFires s) = None
  /\ closeTimers (step TimerFires s) = n
  /\ App.concepts (app (step TimerFires s)) = App.concepts (app s).
Proof. intros H. simpl. rewrite H. repeat split. Qed.

End SessionProperties.

(** * The statements on the sample session *)

(** The sample environment selects the OpenAI service. *)
Example sample_provider :
  @AiService.selectedProvider Sample.environment = openai.
Proof. reflexivity. Qed.

(** C1 at a concept at RECOGNITION: after two calls in a row, the first
    judged correct and the second judged incorrect, the concept is at
    UNDERSTANDING, with the mistake of the second call. *)
Lemma mastery_level_never_decreases_witness :
  let after :=
    Concept.withMistakes (Sample.atLevel 2)
      [MistakeRecord.Build (str "uuid-0") 1700000000000
         (str "What does TCP guarantee?") (str "it is a cable")
         (str "Not quite.") (str "Conceptual")] in
  MasteryLevel.member (Concept.masteryLevel (Sample.atLevel 1))
  /\ @AfterCalls Sample.reader Sample.environment (Sample.atLevel 1) after
  /\ Concept.masteryLevel (Sample.atLevel 1) <= Concept.masteryLevel after.
Proof.
  intros after.
  assert (Hm : MasteryLevel.member (Concept.masteryLevel (Sample.atLevel 1)))
    by (split; discriminate).
  assert (Hcalls :
    @AfterCalls Sample.reader Sample.environment (Sample.atLevel 1) after).
  { eapply oneMore; [eapply oneMore; [apply noCall|]|].
    - apply (handed _ (Sample.answering (str "ordered bytes"))
               (Sample.world [Sample.says "yes"]) (Sample.atLevel 2)).
      left. reflexivity.
    - apply (handed _ (Sample.answering (str "it is a cable"))
               (Sample.world [Sample.says "no"])).
      left. reflexivity. }
  split; [exact Hm|]. split; [exact Hcalls|].
  exact (proj1 (proj2 (proj2 (@mastery_level_never_decreases Sample.reader
                                Sample.environment (Sample.atLevel 1) Hm))
                  after Hcalls)).
Defined.

(** C2 at a concept at APPLICATION: a correct answer hands the concept
    back at REASONING, and nothing else. *)
Lemma submit_applies_transition_rule_witness :
  blank (str "ordered bytes") = false
  /\ exists s' u w',
       @LearningGame.handleSubmit Sample.reader Sample.environment
         (Sample.atLevel 3) (Sample.answering (str "ordered bytes"))
         (Sample.world [Sample.says "yes"])
       = (Return (s', [onUpdateConcept u]), w')
       /\ Concept.masteryLevel u = 4.
Proof.
  split; [reflexivity|].
  edestruct (@submit_applies_transition_rule Sample.reader Sample.environment
               (Sample.atLevel 3) (Sample.answering (str "ordered bytes"))
               (Sample.world [Sample.says "yes"]))
    as (s' & calls & w' & Hrun & Hup & _);
    [reflexivity | reflexivity | reflexivity |].
  destruct (Hup eq_refl eq_refl) as (u & Hcalls & Hlevel & _).
  exists s', u, w'. rewrite Hrun, Hcalls. split; [reflexivity | exact Hlevel].
Defined.

(** C3, as stated, fails: the sample concept is LOCKED, the answer is
    judged correct, and the concept comes back at UNDERSTANDING (2), not at
    RECOGNITION (1); the collection shows it after the three events. *)
Lemma locked_correct_answer_is_not_recognition :
  Concept.masteryLevel Sample.tcp = MasteryLevel.LOCKED
  /\ map Concept.masteryLevel
       (@handedBack Sample.reader Sample.environment Sample.tcp
          (Sample.answering (str "ordered bytes"))
          (Sample.world [Sample.says "yes"]))
     = [MasteryLevel.UNDERSTANDING]
  /\ MasteryLevel.UNDERSTANDING <> MasteryLevel.RECOGNITION
  /\ levels
       (@run Sample.reader Sample.environment
          [SelectNode 0; TypeAnswer (str "ordered bytes"); ClickSubmit]
          (start [Sample.tcp; Sample.udp]
             (Sample.world [Sample.says "What is TCP?"; Sample.says "yes"])))
     = [2; 0].
Proof. repeat split; try reflexivity. discriminate. Qed.

(** C3 (amended) at the sample concept. *)
Lemma locked_correct_reaches_understanding_witness :
  Concept.masteryLevel Sample.tcp = MasteryLevel.LOCKED
  /\ exists s' w',
       @LearningGame.handleSubmit Sample.reader Sample.environment Sample.tcp
         (Sample.answering (str "ordered bytes"))
         (Sample.world [Sample.says "yes"])
       = (Return (s', [onUpdateConcept (Sample.atLevel 2)]), w').
Proof.
  split; [reflexivity|].
  edestruct (@locked_correct_reaches_understanding Sample.reader
               Sample.environment Sample.tcp
               (Sample.answering (str "ordered bytes"))
               (Sample.world [Sample.says "yes"]))
    as (s' & Hrun);
    [reflexivity | reflexivity | reflexivity | reflexivity | reflexivity |].
  eexists s', _. exact Hrun.
Defined.

(** C4 at an answer judged incorrect: one mistake, tagged "Conceptual",
    where there was none. *)
Lemma submit_appends_one_mistake_iff_incorrect_witness :
  Concept.mistakes Sample.tcp = []
  /\ exists m,
       map Concept.mistakes
         (@handedBack Sample.reader Sample.environment Sample.tcp
            (Sample.answering (str "it is a cable"))
            (Sample.world [Sample.says "no"]))
       = [[m]]
       /\ MistakeRecord.misunderstandingType m = str "Conceptual"
       /\ MistakeRecord.correction m = str "Not quite.".
Proof.
  split; [reflexivity|].
  edestruct (@submit_appends_one_mistake_iff_incorrect Sample.reader
               Sample.environment Sample.tcp
               (Sample.answering (str "it is a cable"))
               (Sample.world [Sample.says "no"]))
    as (s' & calls & w' & Hrun & Hm);
    [reflexivity | reflexivity | reflexivity |].
  simpl in Hm. destruct Hm as (m & Hm & Htype & _ & _ & Hcorr).
  exists m. unfold handedBack. rewrite Hrun.
  split; [exact Hm | split; [exact Htype | exact Hcorr]].
Defined.

(** C6 at a provider that rejects the request. *)
Lemma failed_generation_yields_the_fallback_question_witness :
  nextCompletion (Sample.world []) = Rejected
  /\ exists w',
       @Service.generateQuestion Sample.reader gemini Sample.tcp
         [Sample.tcp; Sample.udp] (Sample.world [])
       = (Return
            (Question.Build (str "error") (str "tcp")
               (str "Explain the concept of TCP") SHORT_ANSWER None
               (Some (str "A reliable, ordered byte stream over IP"))),
          w').
Proof.
  split; [reflexivity|].
  exact (@failed_generation_yields_the_fallback_question Sample.reader gemini
           Sample.tcp [Sample.tcp; Sample.udp] (Sample.world []) eq_refl).
Defined.

(** C7 at a provider that answers the evaluation with no text. *)
Lemma failed_evaluation_still_records_a_mistake_witness :
  nextCompletion (Sample.world [Fulfilled None]) = Fulfilled None
  /\ exists s' u m w',
       @LearningGame.handleSubmit Sample.reader Sample.environment Sample.tcp
         (Sample.answering (str "ordered bytes"))
         (Sample.world [Fulfilled None])
       = (Return (s', [onUpdateConcept u]), w')
       /\ Concept.mistakes u = [m]
       /\ MistakeRecord.correction m
          = str "An error occurred during evaluation. Please try again.".
Proof.
  split; [reflexivity|].
  destruct (@failed_evaluation_still_records_a_mistake Sample.reader
              Sample.environment Sample.tcp
              (Sample.answering (str "ordered bytes"))
              (Sample.world [Fulfilled None]) Sample.asked
              eq_refl eq_refl eq_refl)
    as (_ & s' & u & m & w' & Hrun & Hm & _ & _ & _ & _ & _ & Hcorr & _).
  exists s', u, m, w'. split; [exact Hrun|]. split; [exact Hm | exact Hcorr].
Defined.

(** C9 at an answer of two spaces and a tab, in a session with the sample
    question on screen. *)
Lemma blank_submit_changes_nothing_witness :
  let s :=
    MkSession (App.MkState [Sample.tcp; Sample.udp] (Some Sample.tcp))
      (Some (Sample.answering [32; 32; 9]%N)) 0
      (Sample.world [Sample.says "yes"]) in
  blank [32; 32; 9]%N = true
  /\ @step Sample.reader Sample.environment ClickSubmit s = s.
Proof.
  intros s. split; [reflexivity|].
  exact (proj2 (@blank_submit_changes_nothing Sample.reader Sample.environment
                  s (Sample.answering [32; 32; 9]%N) eq_refl eq_refl)).
Defined.

(** C10 on the sample collection: the entry for "tcp" is replaced, the one
    for "udp" stays, and there are still two entries. *)
Lemma updateConcept_replaces_by_id_only_witness :
  let a := App.MkState [Sample.tcp; Sample.udp] None in
  nth_error (App.concepts (App.updateConcept (Sample.atLevel 3) a)) 0
  = Some (Sample.atLevel 3)
  /\ nth_error (App.concepts (App.updateConcept (Sample.atLevel 3) a)) 1
     = Some Sample.udp.
Proof.
  intros a.
  destruct (updateConcept_replaces_by_id_only (Sample.atLevel 3) a) as [_ H].
  split.
  - apply (H 0%nat Sample.tcp eq_refl). reflexivity.
  - apply (H 1%nat Sample.udp eq_refl). discriminate.
Defined.

(** The loop of [next], run: with a provider that keeps repeating a
    question of the history, six requests go out and the repeat is shown;
    with a new question on the third request, three go out. *)
Example next_gives_up_after_five_retries :
  let history := [str "Define TCP."] in
  let s := LearningGame.MkState None false [] None false history false in
  let repeats := Sample.says "Define TCP." in
  let r := @LearningGame.handleNext Sample.reader Sample.environment
             Sample.tcp [Sample.tcp] s
             (Sample.world [repeats; repeats; repeats; repeats; repeats;
                            repeats; Sample.says "What is a segment?"]) in
  List.length (requests (snd r)) = 6%nat
  /\ option_map Question.text
       match fst r with
       | Return s' => LearningGame.currentQuestion s'
       | Throw _ => None
       end
     = Some (str "Define TCP.").
Proof. split; reflexivity. Qed.

Example next_stops_at_the_first_new_question :
  let history := [str "Define TCP."] in
  let s := LearningGame.MkState None false [] None false history false in
  let repeats := Sample.says "Define TCP." in
  let r := @LearningGame.handleNext Sample.reader Sample.environment
             Sample.tcp [Sample.tcp] s
             (Sample.world [repeats; repeats; Sample.says "What is a segment?";
                            repeats]) in
  List.length (requests (snd r)) = 3%nat
  /\ option_map Question.text
       match fst r with
       | Return s' => LearningGame.currentQuestion s'
       | Throw _ => None
       end
     = Some (str "What is a segment?").
Proof. split; reflexivity. Qed.

(** A concept climbs LOCKED, UNDERSTANDING, APPLICATION, REASONING over
    three correct answers; a wrong answer in between leaves it in place. *)
Example levels_along_a_session :
  let answer := [TypeAnswer (str "ordered bytes"); ClickSubmit; ClickContinue] in
  let w := Sample.world
             [Sample.says "Q1"; Sample.says "yes"; Sample.says "Q2";
              Sample.says "no"; Sample.says "Q3"; Sample.says "yes";
              Sample.says "Q4"; Sample.says "yes"; Sample.says "Q5"] in
  let s0 := start [Sample.tcp; Sample.udp] w in
  let at_ events :=
    levels (@run Sample.reader Sample.environment (SelectNode 0 :: events) s0) in
  at_ [] = [0; 0]
  /\ at_ answer = [2; 0]
  /\ at_ (answer ++ answer) = [2; 0]
  /\ at_ (answer ++ answer ++ answer) = [3; 0]
  /\ at_ (answer ++ answer ++ answer ++ answer) = [4; 0].
Proof. repeat split; reflexivity. Qed.

(** * Further properties *)

(** ** The click on the map and the header's counter *)

Section MapProperties.
Context {json : JsonReader} {env : Env}.

Lemma findById_first (concepts : list Concept.t) (id : JsString)
    (c : Concept.t) :
  ConceptMap.findById concepts id = Some c ->
  exists j,
    nth_error concepts j = Some c
    /\ Concept.id c = id
    /\ forall k e, (k < j)%nat -> nth_error concepts k = Some e ->
                   Concept.id e <> id.
Proof.
  unfold ConceptMap.findById.
  induction concepts as [|x concepts IH]; simpl; [discriminate|].
  destruct (strEqb (Concept.id x) id) eqn:E.
  - intros [= <-]. exists 0%nat. split; [reflexivity|].
    split; [apply strEqb_eq; exact E|]. intros k e Hk. lia.
  - intros H. destruct (IH H) as (j & Hj & Hid & Hfirst).
    exists (S j). split; [exact Hj|]. split; [exact Hid|].
    intros [|k] e Hk Hke; simpl in Hke.
    + injection Hke as <-. intros Heq. apply strEqb_eq in Heq. congruence.
    + apply (Hfirst k e); [lia | exact Hke].
Qed.

(** X1 -- a click on a node of the map selects the first concept of the
    collection that carries the node's id: the concept selected stands at
    or before the node's position, has the node's id, and no concept before
    it has that id; it becomes the selection and the collection is left as
    it was.  When the ids of the collection are all different it is the
    concept the node was drawn for. *)
Theorem map_click_selects_the_first_with_the_id (s : Session) (i : nat)
    (d : Concept.t) :
  nth_error (App.concepts (app s)) i = Some d ->
  exists j c,
    (j <= i)%nat
    /\ nth_error (App.concepts (app s)) j = Some c
    /\ Concept.id c = Concept.id d
    /\ (forall k e, (k < j)%nat ->
                    nth_error (App.concepts (app s)) k = Some e ->
                    Concept.id e <> Concept.id d)
    /\ ConceptMap.clicked (App.concepts (app s)) i = Some c
    /\ selectNode i s = selectConcept c s
    /\ App.selectedConcept (app (selectNode i s)) = Some c
    /\ App.concepts (app (selectNode i s)) = App.concepts (app s)
    /\ (NoDup (map Concept.id (App.concepts (app s))) -> j = i /\ c = d).
Proof.
  intros Hi. pose proof (nth_error_In _ _ Hi) as Hin.
  destruct (findById_member _ d Hin) as [c Hc].
  destruct (findById_first _ _ _ Hc) as (j & Hj & Hid & Hfirst).
  assert (Hji : (j <= i)%nat).
  { destruct (Nat.le_gt_cases j i) as [H|H]; [exact H|].
    exfalso. apply (Hfirst i d H Hi). reflexivity. }
  assert (Hclick : ConceptMap.clicked (App.concepts (app s)) i = Some c)
    by (unfold ConceptMap.clicked; rewrite Hi; exact Hc).
  assert (Hsel : selectNode i s = selectConcept c s)
    by (unfold selectNode; rewrite Hclick; reflexivity).
  exists j, c. split; [exact Hji|]. split; [exact Hj|]. split; [exact Hid|].
  split; [exact Hfirst|]. split; [exact Hclick|]. split; [exact Hsel|].
  rewrite Hsel, selectConcept_app. split; [reflexivity|].
  split; [reflexivity|].
  intros Hnd.
  assert (Heq : j = i).
  { apply (proj1 (NoDup_nth_error _) Hnd).
    - rewrite length_map. apply nth_error_Some. rewrite Hj. discriminate.
    - rewrite !nth_error_map, Hj, Hi. simpl. rewrite Hid. reflexivity. }
  split; [exact Heq|]. subst j. rewrite Hi in Hj. injection Hj as <-.
  reflexivity.
Qed.

Lemma mastered_le (l l' : list Z) :
  Forall2 Z.le l l' ->
  Forall (fun x => x <= 4) l' ->
  (List.length (filter (fun x => Z.eqb x 4) l)
   <= List.length (filter (fun x => Z.eqb x 4) l'))%nat.
Proof.
  induction 1 as [|x y l l' Hxy H IH]; intros Hb; simpl; [lia|].
  inversion Hb; subst. specialize (IH ltac:(assumption)).
  destruct (Z.eqb_spec x 4), (Z.eqb_spec y 4); simpl; lia.
Qed.

Lemma masteredCount_levels (s : Session) :
  masteredCount s = List.length (filter (fun x => x =? 4) (levels s)).
Proof.
  unfold masteredCount, levels.
  induction (App.concepts (app s)) as [|c cs IH]; simpl; [reflexivity|].
  destruct (Concept.masteryLevel c =? 4); simpl; rewrite IH; reflexivity.
Qed.

(** X3 -- REASONING is final and the header's counter only goes up, as
    long as each handler completes before the next event: in a session
    started on extracted concepts, with the events of the learning view
    handled one after the other, a position of the collection that is at
    REASONING is still at REASONING after any event, and the number of
    mastered concepts shown in the header does not go down and never
    exceeds the number of concepts.  (A hand-back that resolves after later
    events is not covered: it writes the collection of the render it was
    started in.) *)
Theorem reasoning_is_final (raw : list RawConcept.t) (w : World)
    (events : list Event) (e : Event) :
  let s := run events (start (map Service.initialise raw) w) in
  (forall i,
     nth_error (levels s) i = Some MasteryLevel.REASONING ->
     nth_error (levels (step e s)) i = Some MasteryLevel.REASONING)
  /\ (masteredCount s <= masteredCount (step e s))%nat
  /\ (masteredCount (step e s)
      <= List.length (App.concepts (app (step e s))))%nat.
Proof.
  intros s.
  assert (Hs : Coherent s) by apply run_coherent, start_coherent.
  destruct (step_coherent e s Hs) as [[Hmem _] Hle].
  assert (Hb : Forall (fun x => x <= 4) (levels (step e s))).
  { unfold levels. apply Forall_map. eapply Forall_impl; [|exact Hmem].
    intros c [_ H]. exact H. }
  split; [|split].
  - intros i Hi. revert i Hi Hb. induction Hle as [|x y l l' Hxy H IH];
      intros [|i] Hi Hb; simpl in *; try discriminate;
      inversion Hb; subst.
    + injection Hi as ->. f_equal. unfold MasteryLevel.REASONING in *. lia.
    + apply IH; assumption.
  - rewrite !masteredCount_levels. apply mastered_le; assumption.
  - unfold masteredCount. apply filter_length_le.
Qed.

End MapProperties.

(** ** More on a submission *)

Section SubmitProperties.
Context {json : JsonReader} {env : Env}.

Lemma Extends_refl {A} (l : list A) : Extends l l.
Proof. exists []. symmetry. apply app_nil_r. Qed.

(** Everything the session needs to know of one run of [handleSubmit]. *)
Lemma handleSubmit_full (c : Concept.t) (g : LearningGame.State) (w : World) :
  exists g' calls w',
    LearningGame.handleSubmit c g w = (Return (g', calls), w')
    /\ (Ready g -> Ready g')
    /\ (calls = []
        \/ exists u,
             Advances c u
             /\ Extends (Concept.mistakes c) (Concept.mistakes u)
             /\ (calls = [onUpdateConcept u]
                 \/ calls = [onUpdateConcept u; setTimeoutOnClose 2000])).
Proof.
  destruct (LearningGame.currentQuestion g) as [q|] eqn:Hq;
    [|rewrite handleSubmit_guard by auto; eauto 7].
  destruct (blank (LearningGame.userAnswer g)) eqn:Hb;
    [rewrite handleSubmit_guard by auto; eauto 7|].
  destruct (evaluateAnswer_returns AiService.selectedProvider q
              (LearningGame.userAnswer g) c w) as (r & w1 & He).
  fold (AiService.evaluateAnswer q (LearningGame.userAnswer g) c w) in He.
  rewrite (handleSubmit_evaluated c g w w1 q r Hq Hb He).
  assert (Hready : forall retry,
             Ready g ->
             Ready (LearningGame.MkState (Some q) (LearningGame.loading g)
                      (LearningGame.userAnswer g) (Some r) false
                      (LearningGame.questionHistory g ++ [Question.text q])
                      retry)).
  { intros retry (_ & Hl & _). repeat split; simpl; auto. discriminate. }
  destruct (handleSubmit_calls c g w)
    as (g0 & calls0 & w0 & Hrun & Hcalls).
  rewrite (handleSubmit_evaluated c g w w1 q r Hq Hb He) in Hrun.
  assert (Hu : forall u rest,
             calls0 = onUpdateConcept u :: rest -> Advances c u).
  { intros u rest ->.
    destruct Hcalls as [Hnil | (u' & Hadv & [Hu | Hu])];
      try discriminate; injection Hu as <-; exact Hadv. }
  destruct (AssessmentResult.isCorrect r).
  - destruct (Service.currentLevel c <? MasteryLevel.REASONING);
      injection Hrun as <- Hc0 <-;
      do 3 eexists; (split; [reflexivity|]); (split; [apply Hready|]);
      right; eexists; (split; [|split]); cycle 2;
      [ left; reflexivity | eapply Hu; symmetry; exact Hc0 | apply Extends_refl
      | right; reflexivity | eapply Hu; symmetry; exact Hc0 | apply Extends_refl ].
  - injection Hrun as <- Hc0 <-.
    do 3 eexists. split; [reflexivity|]. split; [apply Hready|].
    right. eexists. (split; [|split]); cycle 2;
      [ left; reflexivity | eapply Hu; symmetry; exact Hc0
      | eexists; reflexivity ].
Qed.


(** X5 -- one level at a time, and REASONING only through APPLICATION: for
    a concept at a level of the enum, the concept a submission hands to the
    host is at most one level above the effective level, differs in level
    only when the verdict is "correct", and is at REASONING only if the
    concept already was, or was at APPLICATION and the answer was judged
    correct; RECOGNITION is never handed back for a concept that was not
    there already. *)
Theorem submit_climbs_one_level (concept u : Concept.t)
    (s : LearningGame.State) (w w1 : World) (question : Question.t)
    (result : AssessmentResult.t) :
  MasteryLevel.member (Concept.masteryLevel concept) ->
  LearningGame.currentQuestion s = Some question ->
  blank (LearningGame.userAnswer s) = false ->
  AiService.evaluateAnswer question (LearningGame.userAnswer s) concept w
  = (Return result, w1) ->
  In u (handedBack concept s w) ->
  Concept.masteryLevel u <= Service.currentLevel concept + 1
  /\ (Concept.masteryLevel u <> Concept.masteryLevel concept ->
      AssessmentResult.isCorrect result = true)
  /\ (Concept.masteryLevel u = MasteryLevel.REASONING ->
      Concept.masteryLevel concept = MasteryLevel.REASONING
      \/ (Concept.masteryLevel concept = MasteryLevel.APPLICATION
          /\ AssessmentResult.isCorrect result = true))
  /\ (Concept.masteryLevel u = MasteryLevel.RECOGNITION ->
      Concept.masteryLevel concept = MasteryLevel.RECOGNITION).
Proof.
  intros Hm Hq Hb He. unfold handedBack.
  rewrite (handleSubmit_evaluated concept s w w1 question result Hq Hb He).
  unfold Service.currentLevel, MasteryLevel.member, MasteryLevel.LOCKED,
    MasteryLevel.RECOGNITION, MasteryLevel.APPLICATION,
    MasteryLevel.REASONING in *.
  assert (Htt : true = true) by reflexivity.
  destruct (AssessmentResult.isCorrect result).
  - destruct (Z.eqb_spec (Concept.masteryLevel concept) 0);
      match goal with |- context [?x <? 4] => destruct (Z.ltb_spec x 4) end;
      simpl; intros [<- | []]; simpl; repeat split; intros;
      first [lia | exact Htt | exfalso; lia | left; lia
            | right; split; [lia | exact Htt]].
  - simpl. intros [<- | []]. simpl.
    destruct (Z.eqb_spec (Concept.masteryLevel concept) 0);
      repeat split; intros; first [lia | exfalso; lia | left; lia].
Qed.

End SubmitProperties.

(** ** What a session keeps true *)

Section LiveProperties.
Context {json : JsonReader} {env : Env}.

Lemma loadQ_ready (c : Concept.t) (allConcepts : list Concept.t)
    (g : LearningGame.State) (w : World) :
  exists g' w',
    LearningGame.loadQ c allConcepts g w = (Return g', w')
    /\ (LearningGame.submitting g = false -> Ready g').
Proof.
  destruct (generated_spec c allConcepts w) as [Hgen _].
  unfold LearningGame.loadQ. cbv beta iota zeta delta [bind ret].
  rewrite Hgen. do 2 eexists. split; [reflexivity|].
  intros Hs. repeat split; simpl; [discriminate | exact Hs].
Qed.

Lemma handleNext_ready (c : Concept.t) (allConcepts : list Concept.t)
    (g : LearningGame.State) (w : World) :
  exists g' w',
    LearningGame.handleNext c allConcepts g w = (Return g', w')
    /\ (LearningGame.submitting g = false -> Ready g').
Proof.
  destruct (generated_spec c allConcepts w) as [Hgen _].
  destruct (regenerate_spec c allConcepts (LearningGame.questionHistory g) 0
              (fst (generated c allConcepts w))
              (snd (generated c allConcepts w)))
    as (k & _ & Hrun & _); [unfold LearningGame.maxAttempts; lia|].
  unfold LearningGame.handleNext. cbv beta iota zeta delta [bind ret].
  rewrite Hgen. simpl LearningGame.questionHistory. rewrite Hrun.
  do 2 eexists. split; [reflexivity|].
  intros Hs. repeat split; simpl; [discriminate | exact Hs].
Qed.

Lemma ledgers_refl (s s' : Session) :
  App.concepts (app s') = App.concepts (app s) ->
  Forall2 Extends (ledgers s) (ledgers s').
Proof.
  unfold ledgers. intros ->.
  induction (App.concepts (app s)); simpl; constructor; auto.
  apply Extends_refl.
Qed.

Lemma runGame_live (m : M LearningGame.State) (a : App.State) (s : Session)
    (c : Concept.t) :
  (exists g' w', m (world s) = (Return g', w') /\ Ready g') ->
  App.concepts a = App.concepts (app s) ->
  App.selectedConcept a = Some c ->
  In c (App.concepts a) ->
  Live s ->
  Live (runGame m a s).
Proof.
  intros (g' & w' & Hm & Hr) Hcs Hsel Hin ((_ & _ & Hsame) & _).
  unfold runGame. rewrite Hm. split; [split; [|split]|]; simpl.
  - rewrite Hsel. split; discriminate.
  - intros c' Hc'. rewrite Hsel in Hc'. injection Hc' as <-. exact Hin.
  - rewrite Hcs. exact Hsame.
  - intros g [= <-]. exact Hr.
Qed.

Lemma selectConcept_live (c : Concept.t) (s : Session) :
  In c (App.concepts (app s)) ->
  Live s ->
  Live (selectConcept c s)
  /\ App.concepts (app (selectConcept c s)) = App.concepts (app s).
Proof.
  intros Hin Hs. split; [|rewrite selectConcept_app; reflexivity].
  pose proof Hs as ((Hiff & _ & Hsame) & Hready).
  unfold selectConcept.
  destruct (App.selectedConcept (app s)) as [old|] eqn:Hold;
    [destruct (game s) as [g|] eqn:Hg; [destruct (strEqb _ _)|]|].
  - split; [split; [|split]|]; simpl; auto.
    + split; discriminate.
    + intros c' [= <-]. exact Hin.
  - apply (runGame_live _ _ _ c); auto.
    destruct (loadQ_ready c (App.concepts (app s)) g (world s))
      as (g' & w' & Hrun & Hr).
    exists g', w'. split; [exact Hrun|]. apply Hr. apply (Hready g eq_refl).
  - apply (runGame_live _ _ _ c); auto.
    destruct (loadQ_ready c (App.concepts (app s)) LearningGame.initialState
                (world s)) as (g' & w' & Hrun & Hr).
    exists g', w'. split; [exact Hrun | apply Hr; reflexivity].
  - apply (runGame_live _ _ _ c); auto.
    destruct (loadQ_ready c (App.concepts (app s)) LearningGame.initialState
                (world s)) as (g' & w' & Hrun & Hr).
    exists g', w'. split; [exact Hrun | apply Hr; reflexivity].
Qed.

Lemma close_live (s s0 : Session) :
  Live s -> app s0 = app s -> Live (close s0).
Proof.
  intros ((_ & _ & Hsame) & _) Happ.
  unfold close. rewrite Happ.
  split; [split; [|split]|]; simpl; auto; try discriminate.
  split; reflexivity.
Qed.

(** A handler that leaves the host alone. *)
Lemma keep_app_live (s s' : Session) (g' : LearningGame.State) :
  Live s ->
  app s' = app s ->
  game s <> None ->
  game s' = Some g' ->
  Ready g' ->
  Live s'.
Proof.
  intros ((Hiff & Hin & Hsame) & _) Happ Hg Hg' Hr.
  split; [split; [|split]|]; rewrite ?Happ; auto.
  - rewrite Hg'. split; [discriminate|].
    intros H. apply Hiff in H. contradiction.
  - rewrite Hg'. intros g [= <-]. exact Hr.
Qed.

Lemma update_ledgers (u : Concept.t) (cs : list Concept.t) :
  (forall d, In d cs -> Concept.id d = Concept.id u ->
             Extends (Concept.mistakes d) (Concept.mistakes u)) ->
  Forall2 Extends (map Concept.mistakes cs)
    (map Concept.mistakes
       (map (fun c => if strEqb (Concept.id c) (Concept.id u) then u else c) cs)).
Proof.
  induction cs as [|d cs IH]; intros H; simpl; constructor.
  - destruct (strEqb (Concept.id d) (Concept.id u)) eqn:E;
      [|apply Extends_refl].
    apply H; [left; reflexivity | apply strEqb_eq; exact E].
  - apply IH. intros d' Hd'. apply H. right. exact Hd'.
Qed.

(** Handing the host a concept that extends the selected one. *)
Lemma update_live (s : Session) (c u : Concept.t) (g' : LearningGame.State)
    (n : nat) (w : World) :
  Live s ->
  App.selectedConcept (app s) = Some c ->
  Concept.id u = Concept.id c ->
  Extends (Concept.mistakes c) (Concept.mistakes u) ->
  Ready g' ->
  let s' := MkSession (App.updateConcept u (app s)) (Some g') n w in
  Live s' /\ Forall2 Extends (ledgers s) (ledgers s').
Proof.
  intros ((_ & Hin & Hsame) & _) Hc Hid Hext Hr. specialize (Hin c Hc).
  pose (f := fun d => if strEqb (Concept.id d) (Concept.id u) then u else d).
  assert (Hf : forall d, Concept.id (f d) = Concept.id d).
  { intros d. unfold f. destruct (strEqb _ _) eqn:E; [|reflexivity].
    apply strEqb_eq in E. congruence. }
  assert (Hcu : strEqb (Concept.id c) (Concept.id u) = true)
    by (apply strEqb_eq; congruence).
  assert (Hfc : f c = u) by (unfold f; rewrite Hcu; reflexivity).
  simpl. unfold Live, InStep, ledgers. simpl. rewrite Hc, Hcu. fold f.
  split; [split; [split; [|split]|]|].
  - split; discriminate.
  - intros c' [= <-]. rewrite <- Hfc. apply in_map. exact Hin.
  - intros c1 c2 H1 H2 Heq.
    apply in_map_iff in H1 as (d1 & <- & H1).
    apply in_map_iff in H2 as (d2 & <- & H2).
    rewrite !Hf in Heq. unfold f.
    destruct (strEqb (Concept.id d1) (Concept.id u)) eqn:E1;
      rewrite <- Heq, E1; auto.
  - intros g [= <-]. exact Hr.
  - apply update_ledgers. intros d Hd Heq.
    destruct (Hsame d c Hd Hin) as [_ Hm]; [congruence|].
    rewrite Hm. exact Hext.
Qed.

(** Every event keeps the session live and only ever adds to the mistakes
    of each position of the collection. *)
Lemma step_live (e : Event) (s : Session) :
  Live s ->
  Live (step e s) /\ Forall2 Extends (ledgers s) (ledgers (step e s)).
Proof.
  intros Hs.
  assert (Hsame : Live s /\ Forall2 Extends (ledgers s) (ledgers s))
    by (split; [exact Hs | apply ledgers_refl; reflexivity]).
  destruct e as [i|answer| | | |]; simpl.
  - destruct (selectNode_cases i s) as [-> | (c & Hc & ->)]; [exact Hsame|].
    destruct (selectConcept_live c s Hc Hs) as [Hl Hcs].
    split; [exact Hl | apply ledgers_refl; exact Hcs].
  - destruct (game s) as [g|] eqn:Hg; [|exact Hsame].
    split; [|apply ledgers_refl; reflexivity].
    apply (keep_app_live s _ (LearningGame.setUserAnswer answer g) Hs);
      simpl; auto; [rewrite Hg; discriminate|].
    destruct (proj2 Hs g Hg) as (Hq & Hl & Hsub). repeat split; assumption.
  - destruct (App.selectedConcept (app s)) as [c|] eqn:Hc; [|exact Hsame].
    destruct (game s) as [g|] eqn:Hg; [|exact Hsame].
    destruct (handleSubmit_full c g (world s))
      as (g' & calls & w' & Hrun & Hr
          & [-> | (u & [Hid _] & Hext & [-> | ->])]);
      rewrite Hrun; simpl; specialize (Hr (proj2 Hs g Hg)).
    + split; [|apply ledgers_refl; reflexivity].
      apply (keep_app_live s _ g' Hs); simpl; auto. rewrite Hg. discriminate.
    + apply (update_live s c u g' _ _ Hs Hc Hid Hext Hr).
    + apply (update_live s c u g' _ _ Hs Hc Hid Hext Hr).
  - destruct (App.selectedConcept (app s)) as [c|] eqn:Hc; [|exact Hsame].
    destruct (game s) as [g|] eqn:Hg; [|exact Hsame].
    destruct (handleNext_ready c (App.concepts (app s)) g (world s))
      as (g' & w' & Hrun & Hr).
    unfold runGame. rewrite Hrun.
    split; [|apply ledgers_refl; reflexivity].
    apply (keep_app_live s _ g' Hs); simpl; auto; [rewrite Hg; discriminate|].
    apply Hr. apply (proj2 Hs g Hg).
  - split; [apply (close_live s); [exact Hs | reflexivity]
           | apply ledgers_refl; reflexivity].
  - destruct (closeTimers s); [exact Hsame|].
    split; [apply (close_live s); [exact Hs | reflexivity]
           | apply ledgers_refl; reflexivity].
Qed.

Lemma run_live (events : list Event) (s : Session) :
  Live s -> Live (run events s).
Proof.
  revert s. induction events as [|e events IH]; intros s Hs; simpl; [exact Hs|].
  apply IH. apply step_live. exact Hs.
Qed.

Lemma start_live (raw : list RawConcept.t) (w : World) :
  Live (start (map Service.initialise raw) w).
Proof.
  split; [split; [|split]|]; simpl; try discriminate; [tauto|].
  intros c d Hc Hd _.
  apply in_map_iff in Hc as (c0 & <- & _).
  apply in_map_iff in Hd as (d0 & <- & _). split; reflexivity.
Qed.


(** X7 -- the mistake ledger is additive, as long as each handler
    completes before the next event: in a session started on extracted
    concepts, with the events of the learning view handled one after the
    other, every event leaves the mistakes of each position of the
    collection as they were, with at most new ones after them; none is
    dropped, changed or moved.  (A hand-back that resolves after later
    events is not covered: it writes the collection of the render it was
    started in, without the mistakes recorded since.) *)
Theorem mistakes_are_only_added (raw : list RawConcept.t) (w : World)
    (events : list Event) (e : Event) :
  let s := run events (start (map Service.initialise raw) w) in
  Forall2 Extends (ledgers s) (ledgers (step e s)).
Proof.
  intros s. apply step_live. apply run_live, start_live.
Qed.


End LiveProperties.

(** ** The arrows of the map and the collection's ids *)

(** X8 -- the map draws an arrow from [a] to [b] exactly when a concept
    with id [b] lists [a] among its dependencies and some concept of the
    collection has id [a]: a dependency on an id that no concept carries is
    never drawn, and no arrow is invented. *)
Theorem links_are_the_resolvable_dependencies (concepts : list Concept.t)
    (a b : JsString) :
  In (ConceptMap.MkLink a b) (ConceptMap.links concepts)
  <-> (exists c, In c concepts /\ Concept.id c = b
                 /\ In a (Concept.dependencies c))
      /\ (exists t, In t concepts /\ Concept.id t = a).
Proof.
  unfold ConceptMap.links. rewrite in_flat_map. split.
  - intros (c & Hc & Hl). apply in_flat_map in Hl as (dep & Hdep & Hl).
    destruct (ConceptMap.findById concepts dep) as [t|] eqn:Ht; [|contradiction].
    destruct Hl as [[= <- <-]|[]].
    destruct (findById_some _ _ _ Ht) as [Htin Htid].
    split; [exists c | exists t]; repeat split; auto. rewrite Htid. exact Hdep.
  - intros [(c & Hc & <- & Hdep) (t & Ht & <-)].
    exists c. split; [exact Hc|]. apply in_flat_map.
    exists (Concept.id t). split; [exact Hdep|].
    destruct (findById_member _ t Ht) as [t' Ht'].
    rewrite Ht'. destruct (findById_some _ _ _ Ht') as [_ ->].
    left. reflexivity.
Qed.

(** X9 -- [updateConcept] never changes an id: the ids of the collection
    stay as they were, in order, and so does the id of the selection;
    applying the same update twice is the same as applying it once. *)
Theorem updateConcept_keeps_ids (updated : Concept.t) (a : App.State) :
  map Concept.id (App.concepts (App.updateConcept updated a))
  = map Concept.id (App.concepts a)
  /\ option_map Concept.id (App.selectedConcept (App.updateConcept updated a))
     = option_map Concept.id (App.selectedConcept a)
  /\ App.updateConcept updated (App.updateConcept updated a)
     = App.updateConcept updated a.
Proof.
  assert (Hid : forall d,
             Concept.id (if strEqb (Concept.id d) (Concept.id updated)
                         then updated else d) = Concept.id d).
  { intros d. destruct (strEqb _ _) eqn:E; [|reflexivity].
    apply strEqb_eq in E. congruence. }
  assert (Hidem : forall d,
             (let d' := if strEqb (Concept.id d) (Concept.id updated)
                        then updated else d in
              if strEqb (Concept.id d') (Concept.id updated)
              then updated else d')
             = if strEqb (Concept.id d) (Concept.id updated)
               then updated else d).
  { intros d. simpl. destruct (strEqb (Concept.id d) _) eqn:E;
      [rewrite strEqb_refl | rewrite E]; reflexivity. }
  destruct a as [cs sel]. unfold App.updateConcept. simpl. repeat split.
  - rewrite map_map. apply map_ext. exact Hid.
  - destruct sel as [c|]; [|reflexivity]. simpl.
    destruct (strEqb (Concept.id c) _) eqn:E; [|reflexivity].
    simpl. apply strEqb_eq in E. congruence.
  - f_equal.
    + rewrite map_map. apply map_ext. exact Hidem.
    + destruct sel as [c|]; [|reflexivity].
      destruct (strEqb (Concept.id c) _) eqn:E;
        [rewrite strEqb_refl | rewrite E]; reflexivity.
Qed.

(** ** More on the services *)

Section MoreServiceProperties.
Context {json : JsonReader}.
Variable b : Backend.

Ltac run_service :=
  cbv beta iota zeta
    delta [tryCatch bind awaitProvider send jsonParse throw ret randomUUID].

(** X10 -- extraction of a blank text (empty or white space only) returns
    no concept at once: nothing is sent to the provider. *)
Theorem blank_content_extracts_nothing (content : JsString) (w : World) :
  blank content = true ->
  Service.extractConceptsFromContent b content w = (Return [], w).
Proof.
  intros H. unfold Service.extractConceptsFromContent.
  rewrite truthy_trim, H. reflexivity.
Qed.

Lemma extractConceptsFromContent_outcome (content : JsString) (w : World) :
  blank content = false ->
  exists outcome,
    Service.extractConceptsFromContent b content w
    = (outcome, logged (ExtractRequest b content) w)
    /\ match outcome with
       | Return concepts =>
           Forall (fun c => Concept.masteryLevel c = MasteryLevel.LOCKED
                            /\ Concept.mistakes c = []) concepts
       | Throw message => message = str "Failed to extract concepts."
       end.
Proof.
  intros H. unfold Service.extractConceptsFromContent.
  rewrite truthy_trim, H. cbn [negb]. run_service.
  assert (Hinit : forall items,
             Forall (fun c => Concept.masteryLevel c = MasteryLevel.LOCKED
                              /\ Concept.mistakes c = [])
               (map Service.initialise items)).
  { intros items. apply Forall_map, Forall_forall. intros c _. split; reflexivity. }
  destruct (nextCompletion w) as [|response];
    [eexists; split; reflexivity|].
  destruct (textOf response) as [text|];
    [|eexists; split; [reflexivity | constructor]].
  destruct (parseConcepts text) as [[items|[items|]]|]; destruct b;
    eexists; (split; [reflexivity|]);
    first [apply Hinit | constructor | reflexivity].
Qed.

(** X11 -- extraction of a text that is not blank sends exactly one
    request, the text itself; whatever comes back, every concept it returns
    is LOCKED and has no mistake, and the only error it ever raises is
    "Failed to extract concepts.". *)
Theorem extraction_starts_every_concept_locked (content : JsString) (w : World) :
  blank content = false ->
  exists outcome,
    Service.extractConceptsFromContent b content w
    = (outcome, logged (ExtractRequest b content) w)
    /\ match outcome with
       | Return concepts =>
           Forall (fun c => Concept.masteryLevel c = MasteryLevel.LOCKED
                            /\ Concept.mistakes c = []) concepts
       | Throw message => message = str "Failed to extract concepts."
       end.
Proof. exact (extractConceptsFromContent_outcome content w). Qed.

(** X12 -- [generateQuestion] always answers with a question, after
    exactly one request; the level it asks the provider for is the
    concept's level with LOCKED counted as 1, so for a level of the enum it
    is between 1 and 4, never 0.  The question carries the concept's id as
    its [conceptId] unless the response itself holds a [conceptId] key: the
    response is spread last, so its [conceptId] (and likewise its [id])
    replaces the one the service wrote. *)
Theorem question_is_for_its_concept_unless_overridden (concept : Concept.t)
    (allConcepts : list Concept.t) (w : World) :
  exists q w',
    Service.generateQuestion b concept allConcepts w = (Return q, w')
    /\ (exists level,
          requests w'
          = requests w
            ++ [QuestionRequest b level (Concept.title concept)
                  (Concept.description concept)
                  (Service.relatedConcepts concept allConcepts)]
          /\ (Concept.masteryLevel concept = MasteryLevel.LOCKED -> level = 1)
          /\ (Concept.masteryLevel concept <> MasteryLevel.LOCKED ->
              level = Concept.masteryLevel concept)
          /\ (MasteryLevel.member (Concept.masteryLevel concept) ->
              1 <= level <= 4))
    /\ (Question.conceptId q <> Concept.id concept ->
        exists text data,
          nextCompletion w = Fulfilled (Some text)
          /\ parseQuestion text = Some data
          /\ QuestionData.conceptId data = Some (Question.conceptId q))
    /\ (forall text data,
          nextCompletion w = Fulfilled (Some text) ->
          truthy text = true ->
          parseQuestion text = Some data ->
          Question.conceptId q
          = match QuestionData.conceptId data with
            | Some theirs => theirs
            | None => Concept.id concept
            end
          /\ Question.id q
             = match QuestionData.id data with
               | Some theirs => theirs
               | None => uuidSource w (uuidsDrawn w)
               end).
Proof.
  assert (Hlevel :
            (Concept.masteryLevel concept = MasteryLevel.LOCKED ->
             Service.currentLevel concept = 1)
            /\ (Concept.masteryLevel concept <> MasteryLevel.LOCKED ->
                Service.currentLevel concept = Concept.masteryLevel concept)
            /\ (MasteryLevel.member (Concept.masteryLevel concept) ->
                1 <= Service.currentLevel concept <= 4)).
  { unfold Service.currentLevel, MasteryLevel.member, MasteryLevel.LOCKED,
      MasteryLevel.REASONING.
    destruct (Z.eqb_spec (Concept.masteryLevel concept) 0);
      repeat split; intros; lia. }
  destruct (generateQuestion_cases b concept allConcepts w)
    as [[Hf H] | (text & data & Hn & Ht & Hp & H)];
    rewrite H; do 2 eexists; (split; [reflexivity|]);
    (split; [eexists; (split; [reflexivity | exact Hlevel])|]).
  - split; [intros Hne; exfalso; apply Hne; reflexivity|].
    intros text data Hn Ht Hp. unfold callFails in Hf.
    rewrite Hn in Hf. simpl in Hf. rewrite Ht, Hp in Hf. discriminate.
  - split.
    + intros Hne. exists text, data. split; [exact Hn|]. split; [exact Hp|].
      simpl in Hne |- *. unfold spreadOver in *.
      destruct (QuestionData.conceptId data); [reflexivity|].
      exfalso. apply Hne. reflexivity.
    + intros text' data' Hn' _ Hp'. rewrite Hn in Hn'.
      injection Hn' as <-. rewrite Hp in Hp'. injection Hp' as <-.
      split; reflexivity.
Qed.

(** X13 -- the summary always renders: for at least one concept,
    [generateUnifiedSummary] sends exactly one request and always returns a
    text; when the request is rejected the text is the fixed error
    document, and when the response carries no text it is the fixed "could
    not generate" document. *)
Theorem summary_always_renders (c : Concept.t) (concepts : list Concept.t)
    (w : World) :
  exists text,
    Service.generateUnifiedSummary b (c :: concepts) w
    = (Return text,
       logged (SummaryRequest b (Service.conceptData (c :: concepts))) w)
    /\ (nextCompletion w = Rejected ->
        text = str "# Error" ++ [10; 10]%N ++ str "Failed to generate summary.")
    /\ (forall response,
          nextCompletion w = Fulfilled response -> textOf response = None ->
          text = str "# Summary" ++ [10; 10]%N
                 ++ str "Could not generate summary.")
    /\ (forall response body,
          nextCompletion w = Fulfilled response ->
          textOf response = Some body ->
          text = stripEmoji body).
Proof.
  unfold Service.generateUnifiedSummary.
  change (List.length (c :: concepts) =? 0)%nat with false. run_service.
  destruct (nextCompletion w) as [|response].
  - eexists. split; [reflexivity|].
    repeat split; [intros; discriminate | intros; discriminate].
  - destruct (textOf response) as [body|] eqn:Ht;
      eexists; (split; [reflexivity|]);
      (split; [discriminate|]); split; intros r; intros;
      try match goal with H : Fulfilled _ = Fulfilled _ |- _ =>
            injection H as <- end;
      try congruence; try reflexivity.
Qed.

End MoreServiceProperties.

(** ** The emoji filter *)

Lemma stripEmoji_no_high (s : JsString) :
  Forall (fun u => isHighSurrogate u = false) s ->
  stripEmoji s = filter (fun u => negb (isEmoji (Z.of_N u))) s.
Proof.
  induction s as [|u [|lo rest] IH]; intros H; [reflexivity| |].
  - simpl. destruct (isEmoji (Z.of_N u)); reflexivity.
  - inversion H as [|? ? Hu Hrest]; subst.
    change (stripEmoji (u :: lo :: rest))
      with (if isHighSurrogate u && isLowSurrogate lo then
              if isEmoji (codePoint u lo) then stripEmoji rest
              else u :: lo :: stripEmoji rest
            else if isEmoji (Z.of_N u) then stripEmoji (lo :: rest)
            else u :: stripEmoji (lo :: rest)).
    rewrite Hu. cbn [andb]. rewrite (IH Hrest).
    cbn [filter]. destruct (isEmoji (Z.of_N u)); reflexivity.
Qed.

(** X14 -- on a text without surrogate pairs (no high surrogate), the emoji
    filter removes exactly the code units of the two symbol ranges
    2600-26FF and 2700-27BF and keeps the rest in order; in particular a
    text whose code units are all below 2600 (ASCII, Latin, Greek,
    Cyrillic, ...) comes out unchanged, and no code unit of those ranges is
    left. *)
Theorem stripEmoji_on_plain_text (s : JsString) :
  Forall (fun u => isHighSurrogate u = false) s ->
  stripEmoji s = filter (fun u => negb (isEmoji (Z.of_N u))) s
  /\ Forall (fun u => isEmoji (Z.of_N u) = false) (stripEmoji s)
  /\ (Forall (fun u => (u < 0x2600)%N) s -> stripEmoji s = s).
Proof.
  intros H. rewrite (stripEmoji_no_high s H). split; [reflexivity|]. split.
  - apply Forall_forall. intros u Hu. apply filter_In in Hu as [_ Hu].
    apply negb_true_iff. exact Hu.
  - intros Hlow. clear H. induction Hlow as [|u s Hu Hs IH]; [reflexivity|].
    simpl. rewrite IH.
    replace (isEmoji (Z.of_N u)) with false; [reflexivity|].
    symmetry. unfold isEmoji, inRange.
    repeat (apply orb_false_iff; split);
      apply andb_false_iff; left; apply Z.leb_gt; lia.
Qed.

(** ** The choice of the provider *)

(** X15 -- the facade selects OpenAI exactly when the OpenAI key is usable
    (longer than 5) and Gemini was not both asked for and usable; so it
    never selects OpenAI without a usable key, and Gemini is what is left,
    key or no key. *)
Theorem selectedProvider_is_openai_iff (env : Env) :
  @AiService.selectedProvider env = openai
  <-> AiService.hasKey VITE_OPENAI_API_KEY = true
      /\ (@AiService.providerIs env "gemini"
          && AiService.hasKey VITE_GEMINI_API_KEY) = false.
Proof.
  unfold AiService.selectedProvider.
  assert (Hex : @AiService.providerIs env "openai" = true ->
                @AiService.providerIs env "gemini" = false).
  { unfold AiService.providerIs. destruct VITE_AI_PROVIDER as [p|]; [|auto].
    intros H. apply strEqb_eq in H. subst p. reflexivity. }
  destruct (@AiService.providerIs env "openai") eqn:Ho;
    destruct (AiService.hasKey VITE_OPENAI_API_KEY) eqn:Hk;
    cbn [andb];
    [ rewrite (Hex eq_refl); cbn [andb]; split; auto | | | ];
    destruct (@AiService.providerIs env "gemini"
              && AiService.hasKey VITE_GEMINI_API_KEY);
    split; intros; try reflexivity; try discriminate; auto;
    destruct H; discriminate.
Qed.

(** ** More on [trim] *)

Lemma blank_app (a b : JsString) : blank (a ++ b) = blank a && blank b.
Proof. apply forallb_app. Qed.

Lemma trimStart_app (a b : JsString) :
  trimStart (a ++ b) = if blank a then trimStart b else trimStart a ++ b.
Proof.
  induction a as [|u a IH]; simpl; [reflexivity|].
  destruct (isWhiteSpace u); simpl; [exact IH | reflexivity].
Qed.

(** [trimEnd], read from the front. *)
Lemma trimEnd_cons (u : N) (s : JsString) :
  trimEnd (u :: s) = if blank (u :: s) then [] else u :: trimEnd s.
Proof.
  unfold trimEnd. simpl rev. rewrite trimStart_app, blank_rev.
  change (blank (u :: s)) with (isWhiteSpace u && blank s).
  destruct (blank s) eqn:Hb.
  - rewrite andb_true_r.
    assert (Hs : trimStart (rev s) = []).
    { apply trimStart_nil_iff. rewrite blank_rev. exact Hb. }
    rewrite Hs. simpl. destruct (isWhiteSpace u); reflexivity.
  - rewrite andb_false_r, rev_app_distr. reflexivity.
Qed.

Lemma trimEnd_nil : trimEnd [] = [].
Proof. reflexivity. Qed.

Lemma blank_trimEnd (s : JsString) : blank (trimEnd s) = blank s.
Proof.
  induction s as [|u s IH]; [reflexivity|].
  rewrite trimEnd_cons. destruct (blank (u :: s)) eqn:Hb; [reflexivity|].
  simpl in *. rewrite IH. exact Hb.
Qed.

Lemma trimEnd_idempotent (s : JsString) : trimEnd (trimEnd s) = trimEnd s.
Proof.
  induction s as [|u s IH]; [reflexivity|].
  rewrite trimEnd_cons. destruct (blank (u :: s)) eqn:Hb; [reflexivity|].
  rewrite trimEnd_cons.
  change (blank (u :: trimEnd s)) with (isWhiteSpace u && blank (trimEnd s)).
  rewrite blank_trimEnd. change (isWhiteSpace u && blank s) with (blank (u :: s)).
  rewrite Hb, IH. reflexivity.
Qed.

Lemma trimStart_startsClean (s : JsString) : startsClean (trimStart s).
Proof.
  induction s as [|u s IH]; simpl; [exact I|].
  destruct (isWhiteSpace u) eqn:Hu; [exact IH | exact Hu].
Qed.

Lemma startsClean_trimStart (s : JsString) : startsClean s -> trimStart s = s.
Proof. destruct s as [|u s]; simpl; [reflexivity|]. intros ->. reflexivity. Qed.

Lemma startsClean_trimEnd (s : JsString) : startsClean s -> startsClean (trimEnd s).
Proof.
  destruct s as [|u s]; [intros; exact I|]. intros H.
  rewrite trimEnd_cons. destruct (blank (u :: s)); [exact I | exact H].
Qed.

Lemma trim_fixed (s : JsString) :
  trimStart (trim s) = trim s /\ trimEnd (trim s) = trim s.
Proof.
  unfold trim. split; [|apply trimEnd_idempotent].
  apply startsClean_trimStart, startsClean_trimEnd, trimStart_startsClean.
Qed.

Lemma trim_idempotent (s : JsString) : trim (trim s) = trim s.
Proof.
  destruct (trim_fixed s) as [H1 H2]. unfold trim at 1. rewrite H1. exact H2.
Qed.

(** [trim] keeps a contiguous piece of the string. *)
Lemma trimStart_suffix (s : JsString) : exists pre, s = pre ++ trimStart s.
Proof.
  induction s as [|u s [pre IH]]; simpl; [exists []; reflexivity|].
  destruct (isWhiteSpace u); [|exists []; reflexivity].
  exists (u :: pre). simpl. f_equal. exact IH.
Qed.

Lemma trimEnd_prefix (s : JsString) : exists post, s = trimEnd s ++ post.
Proof.
  induction s as [|u s [post IH]]; [exists []; reflexivity|].
  rewrite trimEnd_cons. destruct (blank (u :: s)).
  - exists (u :: s). reflexivity.
  - exists post. simpl. f_equal. exact IH.
Qed.

Lemma trim_piece (s : JsString) : exists pre post, s = pre ++ trim s ++ post.
Proof.
  destruct (trimStart_suffix s) as [pre Hpre].
  destruct (trimEnd_prefix (trimStart s)) as [post Hpost].
  exists pre, post. unfold trim. rewrite <- Hpost. exact Hpre.
Qed.

(** ** Content ingestion *)

Lemma collapseSpaces_singleSpaced (r : bool) (s : JsString) :
  singleSpaced r (FileProcessing.collapseSpaces r s) = true.
Proof.
  revert r. induction s as [|u s IH]; intros r; simpl; [reflexivity|].
  destruct (isWhiteSpace u) eqn:Hu.
  - destruct r; [apply IH|]. simpl. rewrite (IH true). reflexivity.
  - simpl. rewrite Hu. apply IH.
Qed.

Lemma singleSpaced_collapseSpaces (r : bool) (s : JsString) :
  singleSpaced r s = true -> FileProcessing.collapseSpaces r s = s.
Proof.
  revert r. induction s as [|u s IH]; intros r; simpl; [reflexivity|].
  destruct (isWhiteSpace u).
  - intros H. apply andb_prop in H as [H Hs]. apply andb_prop in H as [Hu Hr].
    apply N.eqb_eq in Hu. destruct r; [discriminate|].
    rewrite (IH true Hs). subst u. reflexivity.
  - intros H. rewrite (IH false H). reflexivity.
Qed.

(** On a string that does not start with white space the flag is idle. *)
Lemma singleSpaced_startsClean (r : bool) (s : JsString) :
  startsClean s -> singleSpaced r s = singleSpaced false s.
Proof. destruct s as [|u s]; simpl; [reflexivity|]. intros ->. reflexivity. Qed.

Lemma singleSpaced_weaken (r : bool) (s : JsString) :
  singleSpaced r s = true -> singleSpaced false s = true.
Proof.
  destruct s as [|u s]; simpl; [reflexivity|].
  destruct (isWhiteSpace u); [|auto].
  intros H. apply andb_prop in H as [H Hs]. apply andb_prop in H as [Hu _].
  rewrite Hu, Hs. reflexivity.
Qed.

Lemma singleSpaced_trimStart (r : bool) (s : JsString) :
  singleSpaced r s = true -> singleSpaced false (trimStart s) = true.
Proof.
  revert r. induction s as [|u s IH]; intros r; simpl; [reflexivity|].
  destruct (isWhiteSpace u) eqn:Hu.
  - intros H. apply andb_prop in H as [_ Hs]. apply (IH true Hs).
  - intros H. simpl. rewrite Hu. exact H.
Qed.

Lemma singleSpaced_trimEnd (r : bool) (s : JsString) :
  singleSpaced r s = true -> singleSpaced r (trimEnd s) = true.
Proof.
  revert r. induction s as [|u s IH]; intros r H; [reflexivity|].
  rewrite trimEnd_cons. destruct (blank (u :: s)); [reflexivity|].
  simpl in *. destruct (isWhiteSpace u).
  - apply andb_prop in H as [H Hs]. rewrite H. simpl. apply IH. exact Hs.
  - apply IH. exact H.
Qed.

Lemma singleSpaced_spaces (r : bool) (s : JsString) :
  singleSpaced r s = true ->
  Forall (fun u => isWhiteSpace u = true -> u = 32%N) s.
Proof.
  revert r. induction s as [|u s IH]; intros r H; constructor; simpl in H.
  - intros Hu. rewrite Hu in H. apply andb_prop in H as [H _].
    apply andb_prop in H as [H _]. apply N.eqb_eq. exact H.
  - destruct (isWhiteSpace u); [|eauto].
    apply andb_prop in H as [_ H]. eauto.
Qed.

Lemma singleSpaced_no_double (r : bool) (pre post : JsString) (a c : N) :
  singleSpaced r (pre ++ a :: c :: post) = true ->
  isWhiteSpace a && isWhiteSpace c = false.
Proof.
  revert r. induction pre as [|u pre IH]; intros r; simpl.
  - destruct (isWhiteSpace a); [|reflexivity].
    destruct (isWhiteSpace c); [|reflexivity].
    intros H. apply andb_prop in H as [_ H]. apply andb_prop in H as [H _].
    apply andb_prop in H as [_ H]. discriminate.
  - destruct (isWhiteSpace u); [|apply IH].
    intros H. apply andb_prop in H as [_ H]. apply (IH true H).
Qed.

Lemma cleanText_singleSpaced (s : JsString) :
  singleSpaced false (FileProcessing.cleanText s) = true.
Proof.
  unfold FileProcessing.cleanText, trim.
  apply singleSpaced_trimEnd. eapply singleSpaced_trimStart.
  apply collapseSpaces_singleSpaced.
Qed.

Lemma collapseSpaces_no_control (r : bool) (s : JsString) :
  Forall (fun u => FileProcessing.isControl u = false) s ->
  Forall (fun u => FileProcessing.isControl u = false)
    (FileProcessing.collapseSpaces r s).
Proof.
  intros H. revert r. induction H as [|u s Hu Hs IH]; intros r; simpl;
    [constructor|].
  destruct (isWhiteSpace u); [destruct r|]; auto.
Qed.

Lemma Forall_trim (P : N -> Prop) (s : JsString) :
  Forall P s -> Forall P (trim s).
Proof.
  intros H. destruct (trim_piece s) as (pre & post & Hs).
  rewrite Hs in H. apply Forall_app in H as [_ H].
  apply Forall_app in H as [H _]. exact H.
Qed.

Lemma cleanText_no_control (s : JsString) :
  Forall (fun u => FileProcessing.isControl u = false)
    (FileProcessing.cleanText s).
Proof.
  unfold FileProcessing.cleanText. apply Forall_trim.
  apply collapseSpaces_no_control. unfold FileProcessing.removeControl.
  apply Forall_forall. intros u Hu. apply filter_In in Hu as [_ Hu].
  apply negb_true_iff. exact Hu.
Qed.

(** X16 -- the cleaning applied to an uploaded file's text normalises it:
    the result holds no control character, its only white space is single
    plain spaces between other characters (none at either end, no two in a
    row), and cleaning it again changes nothing. *)
Theorem cleanText_normalises (s : JsString) :
  let t := FileProcessing.cleanText s in
  Forall (fun u => FileProcessing.isControl u = false) t
  /\ Forall (fun u => isWhiteSpace u = true -> u = 32%N) t
  /\ (forall pre a c post,
        t = pre ++ a :: c :: post -> isWhiteSpace a && isWhiteSpace c = false)
  /\ trim t = t
  /\ FileProcessing.cleanText t = t.
Proof.
  intros t. pose proof (cleanText_singleSpaced s) as Hs. fold t in Hs.
  pose proof (cleanText_no_control s) as Hc. fold t in Hc.
  assert (Ht : trim t = t) by apply trim_idempotent.
  split; [exact Hc|]. split; [apply (singleSpaced_spaces false); exact Hs|].
  split; [intros pre a c post E; rewrite E in Hs;
          apply (singleSpaced_no_double false pre post); exact Hs|].
  split; [exact Ht|].
  unfold FileProcessing.cleanText at 1.
  replace (FileProcessing.removeControl t) with t.
  - rewrite (singleSpaced_collapseSpaces false t Hs). exact Ht.
  - symmetry. unfold FileProcessing.removeControl.
    clear Hs Ht. induction Hc as [|u l Hu Hl IH]; simpl; [reflexivity|].
    rewrite Hu. simpl. f_equal. exact IH.
Qed.


(** ** Video ids *)

Lemma dropPrefix_app (p r : JsString) : FileProcessing.dropPrefix p (p ++ r) = Some r.
Proof.
  induction p as [|x p IH]; simpl; [destruct r; reflexivity|].
  rewrite N.eqb_refl. exact IH.
Qed.

Lemma dropPrefix_some (p s r : JsString) :
  FileProcessing.dropPrefix p s = Some r -> s = p ++ r.
Proof.
  revert s. induction p as [|x p IH]; intros [|y s]; simpl;
    try discriminate; try (intros [= <-]; reflexivity).
  destruct (N.eqb_spec x y); [|discriminate].
  intros H. subst y. f_equal. apply IH. exact H.
Qed.

Lemma takeId_cons (u : N) (s : JsString) :
  FileProcessing.takeId (u :: s)
  = if FileProcessing.endsId u then [] else u :: FileProcessing.takeId s.
Proof. reflexivity. Qed.

Lemma takeId_prefix (s : JsString) :
  Forall (fun u => FileProcessing.endsId u = false) (FileProcessing.takeId s)
  /\ exists post, s = FileProcessing.takeId s ++ post.
Proof.
  induction s as [|u s [IH [post Hpost]]];
    [split; [constructor | exists []; reflexivity]|].
  rewrite takeId_cons. destruct (FileProcessing.endsId u) eqn:Hu.
  - split; [constructor | exists (u :: s); reflexivity].
  - split; [constructor; assumption|]. exists post. simpl. f_equal. exact Hpost.
Qed.

Lemma takeId_app (id tail : JsString) :
  Forall (fun u => FileProcessing.endsId u = false) id ->
  endsIdAt tail ->
  FileProcessing.takeId (id ++ tail) = id.
Proof.
  intros Hid Htail. induction Hid as [|u id Hu Hid IH].
  - rewrite app_nil_l. destruct tail as [|t tail]; [reflexivity|].
    cbn [endsIdAt] in Htail. rewrite takeId_cons, Htail. reflexivity.
  - rewrite <- app_comm_cons, takeId_cons, Hu, IH. reflexivity.
Qed.

Lemma matchMarkers_some (ms : list JsString) (s id : JsString) :
  FileProcessing.matchMarkers ms s = Some id ->
  id <> []
  /\ Forall (fun u => FileProcessing.endsId u = false) id
  /\ exists pre post, s = pre ++ id ++ post.
Proof.
  induction ms as [|m ms IH]; simpl; [discriminate|].
  destruct (FileProcessing.dropPrefix m s) as [rest|] eqn:Hd; [|exact IH].
  destruct (FileProcessing.takeId rest) as [|u t] eqn:Ht; [exact IH|].
  intros [= <-]. split; [discriminate|].
  destruct (takeId_prefix rest) as [Hno [post Hpost]]. rewrite Ht in *.
  split; [exact Hno|]. exists m, post.
  rewrite <- Hpost. apply dropPrefix_some. exact Hd.
Qed.

Lemma matchUrl_some (s id : JsString) :
  FileProcessing.matchUrl s = Some id ->
  id <> []
  /\ Forall (fun u => FileProcessing.endsId u = false) id
  /\ exists pre post, s = pre ++ id ++ post.
Proof.
  induction s as [|u s IH]; cbn [FileProcessing.matchUrl].
  - destruct (FileProcessing.matchMarkers FileProcessing.markers [])
      as [id'|] eqn:Hm; [|discriminate].
    intros [= <-]. apply (matchMarkers_some _ _ _ Hm).
  - destruct (FileProcessing.matchMarkers FileProcessing.markers (u :: s))
      as [id'|] eqn:Hm.
    + intros [= <-]. apply (matchMarkers_some _ _ _ Hm).
    + intros H. destruct (IH H) as (Hne & Hno & pre & post & E).
      split; [exact Hne|]. split; [exact Hno|].
      exists (u :: pre), post. simpl. f_equal. exact E.
Qed.

Lemma isIdChar_not_end (u : N) :
  FileProcessing.isIdChar u = true -> FileProcessing.endsId u = false.
Proof.
  unfold FileProcessing.endsId. intros H.
  repeat (apply orb_false_iff; split); apply N.eqb_neq; intros ->;
    vm_compute in H; discriminate.
Qed.

(** X18 -- whatever [extractYouTubeVideoId] returns is a piece of the URL
    it was given, is never empty (so the caller's test [!videoId] rejects
    exactly the URLs without a match) and holds none of the characters
    [&], [?], [#] and line feed. *)
Theorem video_id_is_a_clean_piece_of_the_url (url id : JsString) :
  FileProcessing.extractYouTubeVideoId url = Some id ->
  id <> []
  /\ Forall (fun u => FileProcessing.endsId u = false) id
  /\ exists pre post, url = pre ++ id ++ post.
Proof.
  unfold FileProcessing.extractYouTubeVideoId.
  destruct (FileProcessing.matchUrl url) as [id'|] eqn:Hm.
  - intros [= <-]. apply (matchUrl_some _ _ Hm).
  - unfold FileProcessing.matchBareId.
    destruct (List.length url =? 11)%nat eqn:Hl; [|discriminate].
    destruct (forallb FileProcessing.isIdChar url) eqn:Hc; [|discriminate].
    intros [= <-]. split; [|split].
    + intros ->. discriminate.
    + apply Forall_forall. intros u Hu. apply isIdChar_not_end.
      exact (proj1 (forallb_forall _ _) Hc u Hu).
    + exists [], []. rewrite app_nil_r. reflexivity.
Qed.

Lemma markers_start_with_y :
  Forall (fun m => exists m', m = 121%N :: m') FileProcessing.markers.
Proof. repeat constructor; eexists; vm_compute; reflexivity. Qed.

Lemma matchMarkers_skip (ms : list JsString) (u : N) (s : JsString) :
  Forall (fun m => exists m', m = 121%N :: m') ms ->
  u <> 121%N ->
  FileProcessing.matchMarkers ms (u :: s) = None.
Proof.
  intros Hms Hu. induction Hms as [|m ms [m' ->] _ IH];
    cbn [FileProcessing.matchMarkers FileProcessing.dropPrefix]; [reflexivity|].
  destruct (N.eqb_spec 121 u); [congruence | exact IH].
Qed.

Lemma matchUrl_skip (pre s : JsString) :
  Forall (fun u => u <> 121%N) pre ->
  FileProcessing.matchUrl (pre ++ s) = FileProcessing.matchUrl s.
Proof.
  induction 1 as [|u pre Hu _ IH]; [reflexivity|].
  rewrite <- app_comm_cons. cbn [FileProcessing.matchUrl].
  rewrite (matchMarkers_skip _ u _ markers_start_with_y Hu). exact IH.
Qed.

Lemma matchMarkers_at (m rest : JsString) :
  In m FileProcessing.markers ->
  FileProcessing.takeId rest <> [] ->
  FileProcessing.matchMarkers FileProcessing.markers (m ++ rest)
  = Some (FileProcessing.takeId rest).
Proof.
  intros Hm Hne.
  assert (Hhit : forall ms,
             FileProcessing.matchMarkers (m :: ms) (m ++ rest)
             = Some (FileProcessing.takeId rest)).
  { intros ms. simpl. rewrite dropPrefix_app.
    destruct (FileProcessing.takeId rest); [contradiction | reflexivity]. }
  unfold FileProcessing.markers in *.
  destruct Hm as [<- | [<- | [<- | []]]].
  - apply Hhit.
  - change (FileProcessing.matchMarkers
              (str "youtube.com/watch?v=" :: str "youtu.be/"
               :: [str "youtube.com/embed/"]) (str "youtu.be/" ++ rest))
      with (FileProcessing.matchMarkers
              (str "youtu.be/" :: [str "youtube.com/embed/"])
              (str "youtu.be/" ++ rest)).
    apply Hhit.
  - change (FileProcessing.matchMarkers
              (str "youtube.com/watch?v=" :: str "youtu.be/"
               :: [str "youtube.com/embed/"]) (str "youtube.com/embed/" ++ rest))
      with (FileProcessing.matchMarkers [str "youtube.com/embed/"]
              (str "youtube.com/embed/" ++ rest)).
    apply Hhit.
Qed.

(** X19 -- a video id comes back from its URL: for each of the three URL
    forms ([youtube.com/watch?v=], [youtu.be/], [youtube.com/embed/]),
    after any text without the letter y (such as [https://www.]), an id
    that is not empty and holds none of [&], [?], [#] and line feed,
    followed by nothing or by one of those characters, is what
    [extractYouTubeVideoId] returns. *)
Theorem video_id_round_trip (pre m id tail : JsString) :
  In m FileProcessing.markers ->
  Forall (fun u => u <> 121%N) pre ->
  id <> [] ->
  Forall (fun u => FileProcessing.endsId u = false) id ->
  endsIdAt tail ->
  FileProcessing.extractYouTubeVideoId (pre ++ m ++ id ++ tail) = Some id.
Proof.
  intros Hm Hpre Hne Hid Htail.
  unfold FileProcessing.extractYouTubeVideoId.
  rewrite (matchUrl_skip pre _ Hpre).
  assert (Ht : FileProcessing.takeId (id ++ tail) = id)
    by (apply takeId_app; assumption).
  assert (Hhere : FileProcessing.matchMarkers FileProcessing.markers
                    (m ++ id ++ tail) = Some id).
  { rewrite matchMarkers_at; [rewrite Ht; reflexivity | exact Hm |].
    rewrite Ht. exact Hne. }
  destruct (m ++ id ++ tail) as [|u s] eqn:E;
    cbn [FileProcessing.matchUrl]; rewrite Hhere; reflexivity.
Qed.

Lemma markers_hold_a_dot :
  Forall (fun m => forallb FileProcessing.isIdChar m = false)
    FileProcessing.markers.
Proof. repeat constructor; vm_compute; reflexivity. Qed.

Lemma matchMarkers_idChars (ms : list JsString) (s : JsString) :
  Forall (fun m => forallb FileProcessing.isIdChar m = false) ms ->
  forallb FileProcessing.isIdChar s = true ->
  FileProcessing.matchMarkers ms s = None.
Proof.
  intros Hms Hs. induction Hms as [|m ms Hm _ IH]; [reflexivity|].
  cbn [FileProcessing.matchMarkers].
  destruct (FileProcessing.dropPrefix m s) as [rest|] eqn:Hd; [|exact IH].
  apply dropPrefix_some in Hd. subst s.
  rewrite forallb_app, Hm in Hs. discriminate.
Qed.

Lemma matchUrl_idChars (s : JsString) :
  forallb FileProcessing.isIdChar s = true -> FileProcessing.matchUrl s = None.
Proof.
  induction s as [|u s IH]; intros Hs; cbn [FileProcessing.matchUrl];
    rewrite (matchMarkers_idChars _ _ markers_hold_a_dot Hs); [reflexivity|].
  apply IH. simpl in Hs. apply andb_prop in Hs as [_ Hs]. exact Hs.
Qed.

(** X20 -- a bare video id is accepted as it is: a string of exactly 11
    letters, digits, [_] or [-] is returned unchanged; a string of such
    characters of any other length is rejected. *)
Theorem bare_video_id_is_accepted (s : JsString) :
  forallb FileProcessing.isIdChar s = true ->
  FileProcessing.extractYouTubeVideoId s
  = if (List.length s =? 11)%nat then Some s else None.
Proof.
  intros Hs. unfold FileProcessing.extractYouTubeVideoId.
  rewrite (matchUrl_idChars s Hs). unfold FileProcessing.matchBareId.
  rewrite Hs, andb_true_r. reflexivity.
Qed.

(** ** The set-up screen *)

Section SetupProperties.
Context {json : JsonReader} {env : Env}.

Ltac run_setup := cbv beta iota zeta delta [tryCatch bind throw ret].

(** X21 -- [handleAnalyze] never fails and starts a session only on
    concepts: it calls [onSessionStart] only with a list that is not empty,
    of concepts all LOCKED and without mistakes, and then shows no error;
    in every other case it shows an error.  A blank text is refused on the
    spot (nothing is sent, the fixed "Please add some content first."
    message); otherwise exactly one extraction request goes out, carrying
    the text, and the busy flag is down again at the end.  The text is never
    changed. *)
Theorem analysis_starts_only_on_concepts (s : SessionSetup.State) (w : World) :
  exists s' started w',
    SessionSetup.handleAnalyze s w = (Return (s', started), w')
    /\ SessionSetup.inputText s' = SessionSetup.inputText s
    /\ (if blank (SessionSetup.inputText s) then
          w' = w /\ started = None
          /\ SessionSetup.error s' = Some (str "Please add some content first.")
          /\ SessionSetup.isAnalyzing s' = SessionSetup.isAnalyzing s
        else
          w' = logged (ExtractRequest AiService.selectedProvider
                         (SessionSetup.inputText s)) w
          /\ SessionSetup.isAnalyzing s' = false)
    /\ match started with
       | Some concepts =>
           concepts <> []
           /\ Forall (fun c => Concept.masteryLevel c = MasteryLevel.LOCKED
                               /\ Concept.mistakes c = []) concepts
           /\ SessionSetup.error s' = None
       | None => SessionSetup.error s' <> None
       end.
Proof.
  unfold SessionSetup.handleAnalyze. rewrite truthy_trim.
  destruct (blank (SessionSetup.inputText s)) eqn:Hb; cbn [negb].
  - do 3 eexists. split; [reflexivity|]. simpl. repeat split. discriminate.
  - run_setup. cbn [SessionSetup.inputText SessionSetup.setError
                     SessionSetup.setIsAnalyzing].
    destruct (extractConceptsFromContent_outcome AiService.selectedProvider
                (SessionSetup.inputText s) w Hb) as (outcome & Hrun & Hout).
    fold (AiService.extractConceptsFromContent (SessionSetup.inputText s) w)
      in Hrun.
    rewrite Hrun. destruct outcome as [[|c concepts]|message];
      do 3 eexists; (split; [reflexivity|]); simpl;
      repeat split; try discriminate; exact Hout.
Qed.

Variable processFile :
  FileProcessing.File -> Outcome FileProcessing.ProcessedContent.
Variable processYouTubeURL :
  JsString -> Outcome FileProcessing.ProcessedContent.

Lemma appendContent_extends (title text prev : JsString) :
  Extends prev (SessionSetup.appendContent title text prev).
Proof. unfold SessionSetup.appendContent. eexists. reflexivity. Qed.

Lemma appendContent_not_blank (title text prev : JsString) :
  blank (SessionSetup.appendContent title text prev) = false.
Proof.
  unfold SessionSetup.appendContent. rewrite (blank_app prev).
  rewrite (blank_app (if truthy (trim prev) then _ else _)).
  assert (H : blank (str "# " ++ title ++ [10; 10]%N ++ text) = false)
    by reflexivity.
  rewrite H, !andb_false_r. reflexivity.
Qed.

Lemma appendContent_ends (title text prev : JsString) :
  exists before, SessionSetup.appendContent title text prev = before ++ text.
Proof.
  unfold SessionSetup.appendContent.
  exists (prev
          ++ (if truthy (trim prev)
              then [10; 10]%N ++ str "---" ++ [10; 10]%N else [])
          ++ str "# " ++ title ++ [10; 10]%N).
  rewrite <- !app_assoc. reflexivity.
Qed.

Lemma orElse_truthy (a : option JsString) (d : JsString) :
  d <> [] -> SessionSetup.orElse a d <> [].
Proof.
  intros Hd. unfold SessionSetup.orElse.
  destruct a as [[|u x]|]; simpl; auto. discriminate.
Qed.

(** X22 -- an upload only ever adds to the text: when the file is
    processed, the text typed or added so far is kept as the beginning of
    the new text, which ends with the file's text and is never blank (so
    the analysis will not refuse it); exactly one name is added at the end
    of the list of uploads and no error is shown.  When processing fails,
    the text and the list stay as they were and an error message that is
    not empty is shown.  Either way the busy flag is down at the end and
    the URL field is untouched. *)
Theorem upload_adds_after_what_is_there (file : FileProcessing.File)
    (s : SessionSetup.State) :
  let s' := SessionSetup.handleFileUpload processFile (Some file) s in
  SessionSetup.isProcessingFile s' = false
  /\ SessionSetup.youtubeUrl s' = SessionSetup.youtubeUrl s
  /\ match processFile file with
     | Return processed =>
         Extends (SessionSetup.inputText s) (SessionSetup.inputText s')
         /\ (exists before,
               SessionSetup.inputText s'
               = before ++ FileProcessing.text processed)
         /\ blank (SessionSetup.inputText s') = false
         /\ SessionSetup.error s' = None
         /\ exists entry,
              SessionSetup.uploadedFiles s'
              = SessionSetup.uploadedFiles s ++ [entry]
     | Throw message =>
         SessionSetup.inputText s' = SessionSetup.inputText s
         /\ SessionSetup.uploadedFiles s' = SessionSetup.uploadedFiles s
         /\ exists shown, SessionSetup.error s' = Some shown /\ shown <> []
     end.
Proof.
  cbv zeta. unfold SessionSetup.handleFileUpload.
  destruct (processFile file) as [processed|message]; simpl.
  - split; [reflexivity|]. split; [reflexivity|].
    split; [apply appendContent_extends|].
    split; [apply appendContent_ends|].
    split; [apply appendContent_not_blank|].
    split; [reflexivity|]. eexists. reflexivity.
  - split; [reflexivity|]. split; [reflexivity|].
    split; [reflexivity|]. split; [reflexivity|].
    eexists. split; [reflexivity|].
    apply (orElse_truthy (Some message) (str "Failed to process file")).
    discriminate.
Qed.

(** X23 -- submitting a video URL: a blank URL does nothing at all.
    Otherwise the URL field is emptied and the busy flag is down at the end
    whether [processYouTubeURL] returned or threw; the text and the list of
    uploads only grow; no error is shown exactly when [processYouTubeURL]
    returned content (be it a transcript or the placeholder the
    repository's function returns when no transcript can be fetched), in
    which case the text is not blank and the one name added to the list is
    not empty; and an error is shown, with text and list unchanged, exactly
    when it threw. *)
Theorem video_submit_always_clears_the_url (s : SessionSetup.State) :
  let s' := SessionSetup.handleYouTubeSubmit processYouTubeURL s in
  if blank (SessionSetup.youtubeUrl s) then s' = s
  else
    SessionSetup.youtubeUrl s' = []
    /\ SessionSetup.isProcessingFile s' = false
    /\ Extends (SessionSetup.inputText s) (SessionSetup.inputText s')
    /\ Extends (SessionSetup.uploadedFiles s) (SessionSetup.uploadedFiles s')
    /\ match processYouTubeURL (SessionSetup.youtubeUrl s) with
       | Return processed =>
           SessionSetup.error s' = None
           /\ blank (SessionSetup.inputText s') = false
           /\ exists entry,
                entry <> []
                /\ SessionSetup.uploadedFiles s'
                   = SessionSetup.uploadedFiles s ++ [entry]
       | Throw message =>
           SessionSetup.error s' <> None
           /\ SessionSetup.inputText s' = SessionSetup.inputText s
           /\ SessionSetup.uploadedFiles s' = SessionSetup.uploadedFiles s
       end.
Proof.
  cbv zeta. unfold SessionSetup.handleYouTubeSubmit. rewrite truthy_trim.
  destruct (blank (SessionSetup.youtubeUrl s)); cbn [negb]; [reflexivity|].
  destruct (processYouTubeURL _) as [processed|message]; simpl.
  - split; [reflexivity|]. split; [reflexivity|].
    split; [apply appendContent_extends|].
    split; [eexists; reflexivity|].
    split; [reflexivity|].
    split; [apply appendContent_not_blank|].
    eexists. split; [|reflexivity].
    apply (orElse_truthy (SessionSetup.titleOf processed)
             (str "YouTube Video")).
    discriminate.
  - split; [reflexivity|]. split; [reflexivity|].
    split; [apply Extends_refl|]. split; [apply Extends_refl|].
    split; [discriminate|]. split; reflexivity.
Qed.

End SetupProperties.

(** ** The summary screen and the note store *)

Lemma filter_length_all {A} (f : A -> bool) (l : list A) :
  List.length (filter f l) = List.length l <-> Forall (fun x => f x = true) l.
Proof.
  induction l as [|x l IH]; simpl.
  - split; auto.
  - pose proof (filter_length_le f l) as Hle.
    destruct (f x) eqn:Hx; simpl.
    + split.
      * intros H. constructor; [exact Hx | apply IH; lia].
      * intros H. inversion H; subst. f_equal. apply IH. assumption.
    + split; [lia|]. intros H. inversion H; congruence.
Qed.

Section SummaryProperties.
Variable user : option JsString.
Variable concepts : list Concept.t.

Lemma handleSaveToDatabase_cases (s : SummaryView.State) (db : Supabase.Db) :
  let r := SummaryView.handleSaveToDatabase user concepts s db in
  (r = (s, db)
   /\ (user = None \/ SummaryView.summary s = []
       \/ SummaryView.saved s = true))
  \/ (exists userId noteData,
        user = Some userId
        /\ SummaryView.summary s <> []
        /\ SummaryView.saved s = false
        /\ snd r = Supabase.sent (Supabase.Insert userId noteData) db
        /\ NoteData.title noteData = SummaryView.noteTitle s
        /\ NoteData.content noteData = SummaryView.summary s
        /\ NoteData.concept_count noteData = List.length concepts
        /\ MasterySummary.total (NoteData.mastery_summary noteData)
           = List.length concepts
        /\ MasterySummary.mastered (NoteData.mastery_summary noteData)
           = List.length
               (filter
                  (fun c => Concept.masteryLevel c =? MasteryLevel.REASONING)
                  concepts)
        /\ MasterySummary.concepts (NoteData.mastery_summary noteData)
           = map Concept.title concepts
        /\ SummaryView.summary (fst r) = SummaryView.summary s
        /\ SummaryView.noteTitle (fst r) = SummaryView.noteTitle s
        /\ SummaryView.generating (fst r) = SummaryView.generating s
        /\ SummaryView.saving (fst r) = false
        /\ SummaryView.saved (fst r)
           = match Supabase.onInsert db (Supabase.tick db) with
             | Supabase.Resolved _ => true
             | _ => false
             end).
Proof.
  cbv zeta. unfold SummaryView.handleSaveToDatabase.
  destruct user as [userId|]; [|left; auto].
  destruct (SummaryView.summary s) as [|u text] eqn:Hsum; cbn [truthy negb orb].
  - left. auto.
  - destruct (SummaryView.saved s) eqn:Hsaved; [left; auto|].
    right. unfold Supabase.saveNote.
    destruct (Supabase.onInsert db (Supabase.tick db));
      do 2 eexists; simpl; rewrite ?Hsum, ?Hsaved;
      repeat split; discriminate.
Qed.

(** X24 -- saving the summary stores the session as it is: with a user, a
    summary that is not empty and no save so far, exactly one insert is
    sent, for that user, carrying the title and the summary shown, the
    number of concepts (as count and as total), their titles in order, and
    a mastered count that never exceeds the total and equals it exactly
    when every concept is at REASONING; the note counts as saved exactly
    when the store returned the row, and the busy flag is down at the end.
    Without a user, with an empty summary, or once saved, nothing is sent
    and nothing changes. *)
Theorem save_stores_the_session_as_it_is (s : SummaryView.State)
    (db : Supabase.Db) :
  let r := SummaryView.handleSaveToDatabase user concepts s db in
  match user with
  | Some userId =>
      if truthy (SummaryView.summary s) && negb (SummaryView.saved s) then
        exists noteData,
          Supabase.queries (snd r)
          = Supabase.queries db ++ [Supabase.Insert userId noteData]
          /\ NoteData.title noteData = SummaryView.noteTitle s
          /\ NoteData.content noteData = SummaryView.summary s
          /\ NoteData.concept_count noteData = List.length concepts
          /\ MasterySummary.total (NoteData.mastery_summary noteData)
             = List.length concepts
          /\ MasterySummary.concepts (NoteData.mastery_summary noteData)
             = map Concept.title concepts
          /\ (MasterySummary.mastered (NoteData.mastery_summary noteData)
              <= List.length concepts)%nat
          /\ (MasterySummary.mastered (NoteData.mastery_summary noteData)
              = List.length concepts
              <-> Forall (fun c => Concept.masteryLevel c
                                   = MasteryLevel.REASONING) concepts)
          /\ SummaryView.saving (fst r) = false
          /\ (SummaryView.saved (fst r) = true
              <-> exists row,
                    Supabase.onInsert db (Supabase.tick db)
                    = Supabase.Resolved row)
      else r = (s, db)
  | None => r = (s, db)
  end.
Proof.
  cbv zeta.
  destruct (handleSaveToDatabase_cases s db)
    as [(Hr & Hwhy) | (userId & noteData & Hu & Hsum & Hsaved & Hdb & Ht & Hc
                       & Hn & Htot & Hm & Hcs & _ & _ & _ & Hsaving & Hs')].
  - destruct user as [userId|]; [|exact Hr].
    destruct Hwhy as [Hu | [Hsum | Hsaved]]; [discriminate | |].
    + rewrite Hsum. exact Hr.
    + rewrite Hsaved, andb_false_r. exact Hr.
  - rewrite Hdb, Hsaving, Hs', Hu.
    destruct (SummaryView.summary s) as [|u text] eqn:Hsum';
      [congruence|]. rewrite Hsaved. cbn [truthy negb andb].
    exists noteData.
    split; [reflexivity|]. split; [exact Ht|].
    split; [rewrite Hc; reflexivity|].
    split; [exact Hn|]. split; [exact Htot|]. split; [exact Hcs|].
    split; [rewrite Hm; apply filter_length_le|].
    split.
    + rewrite Hm, filter_length_all.
      split; intros H; eapply Forall_impl; try exact H;
        intros c; cbv beta; rewrite Z.eqb_eq; auto.
    + split; [reflexivity|].
      destruct (Supabase.onInsert db (Supabase.tick db)) as [row| |];
        split; try discriminate; try (intros [row' Hrow]; discriminate).
      * intros _. exists row. reflexivity.
      * reflexivity.
Qed.

Lemma step_cases (e : SummaryView.Event) (s : SummaryView.State)
    (db : Supabase.Db) :
  let r := SummaryView.step user concepts e s db in
  SummaryView.summary (fst r) = SummaryView.summary s
  /\ ((snd r = db /\ SummaryView.saved (fst r) = SummaryView.saved s)
      \/ (exists userId noteData,
            SummaryView.saved s = false
            /\ snd r = Supabase.sent (Supabase.Insert userId noteData) db
            /\ SummaryView.saved (fst r)
               = match Supabase.onInsert db (Supabase.tick db) with
                 | Supabase.Resolved _ => true
                 | _ => false
                 end)).
Proof.
  cbv zeta.
  assert (Hsave :
    SummaryView.summary
      (fst (SummaryView.handleSaveToDatabase user concepts s db))
    = SummaryView.summary s
    /\ ((snd (SummaryView.handleSaveToDatabase user concepts s db) = db
         /\ SummaryView.saved
              (fst (SummaryView.handleSaveToDatabase user concepts s db))
            = SummaryView.saved s)
        \/ (exists userId noteData,
              SummaryView.saved s = false
              /\ snd (SummaryView.handleSaveToDatabase user concepts s db)
                 = Supabase.sent (Supabase.Insert userId noteData) db
              /\ SummaryView.saved
                   (fst (SummaryView.handleSaveToDatabase user concepts s db))
                 = match Supabase.onInsert db (Supabase.tick db) with
                   | Supabase.Resolved _ => true
                   | _ => false
                   end))).
  { destruct (handleSaveToDatabase_cases s db)
      as [(Hr & _) | (userId & noteData & _ & _ & Hsaved & Hdb & _ & _ & _ & _
                      & _ & _ & Hsum & _ & _ & _ & Hs')].
    - rewrite Hr. simpl. auto.
    - split; [exact Hsum|]. right. exists userId, noteData. auto. }
  destruct e as [| |value]; cbn [SummaryView.step].
  - exact Hsave.
  - unfold SummaryView.handleDownload.
    destruct user as [userId|] eqn:Hu; [|simpl; auto].
    destruct (SummaryView.saved s) eqn:Hsaved; cbn [negb]; [simpl; auto|].
    destruct (SummaryView.handleSaveToDatabase (Some userId) concepts s db)
      as [s' db'] eqn:Hr.
    cbn [fst snd] in *. exact Hsave.
  - simpl. auto.
Qed.

(** X25 -- a note is stored at most once: over any sequence of clicks on
    Save and Download and edits of the title (each handler completing
    before the next event), the summary text is never changed, the store
    only receives further queries, every query answered with a row is the
    last one sent, and then the note counts as saved; from a state that
    counts as saved nothing is sent at all. *)
Theorem a_note_is_stored_at_most_once (events : list SummaryView.Event)
    (s : SummaryView.State) (db : Supabase.Db) :
  let r := SummaryView.run user concepts events s db in
  SummaryView.summary (fst r) = SummaryView.summary s
  /\ Extends (Supabase.queries db) (Supabase.queries (snd r))
  /\ Supabase.onInsert (snd r) = Supabase.onInsert db
  /\ (SummaryView.saved s = true ->
      snd r = db /\ SummaryView.saved (fst r) = true)
  /\ (forall i row,
        (Supabase.tick db <= i < Supabase.tick (snd r))%nat ->
        Supabase.onInsert db i = Supabase.Resolved row ->
        (i + 1 = Supabase.tick (snd r))%nat
        /\ SummaryView.saved (fst r) = true).
Proof.
  cbv zeta. revert s db.
  induction events as [|e events IH]; intros s db.
  - simpl. split; [reflexivity|]. split; [apply Extends_refl|].
    split; [reflexivity|]. split; [auto|]. intros i row Hi. lia.
  - cbn [SummaryView.run].
    destruct (step_cases e s db) as (Hsum & Hstep).
    destruct (SummaryView.step user concepts e s db) as [s1 db1].
    cbn [fst snd] in Hsum, Hstep.
    destruct (IH s1 db1) as (IHsum & IHext & IHor & IHsaved & IHlast).
    destruct Hstep as [(-> & Hs1) | (userId & noteData & Hs & -> & Hs1)].
    + split; [congruence|]. split; [exact IHext|]. split; [exact IHor|].
      split; [rewrite <- Hs1; exact IHsaved|]. exact IHlast.
    + split; [congruence|].
      split.
      { destruct IHext as (more & Hmore). rewrite Hmore. simpl.
        rewrite <- app_assoc. eexists. reflexivity. }
      split; [exact IHor|].
      split; [congruence|].
      intros i row Hi Hrow.
      assert (Htick : Supabase.tick
                        (Supabase.sent (Supabase.Insert userId noteData) db)
                      = S (Supabase.tick db)).
      { unfold Supabase.tick, Supabase.sent. simpl.
        rewrite length_app. simpl. lia. }
      destruct (Nat.eq_dec i (Supabase.tick db)) as [-> | Hne].
      * rewrite Hrow in Hs1. destruct (IHsaved Hs1) as (Hdb & Hsv).
        rewrite Hdb, Htick. split; [lia | exact Hsv].
      * apply (IHlast i row); [rewrite Htick; lia | exact Hrow].
Qed.

End SummaryProperties.

(** ** The saved notes *)

Lemma filter_other_ids (noteId : JsString) (l : list SavedNote.t)
    (n : SavedNote.t) :
  In n (filter (fun n => negb (strEqb (SavedNote.id n) noteId)) l)
  <-> In n l /\ SavedNote.id n <> noteId.
Proof.
  rewrite filter_In, negb_true_iff. split; intros [H1 H2].
  - split; [exact H1|]. intros Heq.
    rewrite Heq, strEqb_refl in H2. discriminate.
  - split; [exact H1|]. destruct (strEqb (SavedNote.id n) noteId) eqn:E;
      [|reflexivity]. apply strEqb_eq in E. contradiction.
Qed.

Lemma notes_resume (d : MyNotes.Deletion) (s : MyNotes.State) :
  MyNotes.success d = true ->
  MyNotes.notes (MyNotes.handleDeleteResume d s)
  = filter (fun n => negb (strEqb (SavedNote.id n) (MyNotes.noteId d)))
      (MyNotes.renderedNotes d).
Proof.
  intros H. unfold MyNotes.handleDeleteResume. rewrite H.
  destruct (MyNotes.renderedSelection d) as [n|];
    [destruct (strEqb _ _)|]; reflexivity.
Qed.

Section NotesProperties.
Variable user : option JsString.

(** X26 -- deleting a note, when no other handler runs between the click
    and the store's answer: the list of notes only loses notes, and only
    ones with the id given; the open note is only ever closed, and when it
    was one of the listed notes it still is; the list changes only when
    there is a user, the dialog was confirmed and the store accepted the
    deletion, and then no note with that id is left; at most one query is
    sent, a deletion of that id for that user, and none without a user or
    a confirmation. *)
Theorem delete_removes_only_that_note (confirmed : bool) (noteId : JsString)
    (s : MyNotes.State) (db : Supabase.Db) :
  let r := MyNotes.handleDelete user confirmed noteId s db in
  (forall n, In n (MyNotes.notes (fst r)) -> In n (MyNotes.notes s))
  /\ (forall n, In n (MyNotes.notes s) -> SavedNote.id n <> noteId ->
                In n (MyNotes.notes (fst r)))
  /\ (forall n, MyNotes.selectedNote (fst r) = Some n ->
                MyNotes.selectedNote s = Some n)
  /\ ((forall n, MyNotes.selectedNote s = Some n -> In n (MyNotes.notes s)) ->
      forall n, MyNotes.selectedNote (fst r) = Some n ->
                In n (MyNotes.notes (fst r)))
  /\ (MyNotes.notes (fst r) <> MyNotes.notes s ->
      confirmed = true
      /\ (exists ack,
            Supabase.onDelete db (Supabase.tick db) = Supabase.Resolved ack)
      /\ forall n, In n (MyNotes.notes (fst r)) -> SavedNote.id n <> noteId)
  /\ match user with
     | Some userId =>
         snd r = if confirmed
                 then Supabase.sent (Supabase.DeleteNote noteId userId) db
                 else db
     | None => r = (s, db)
     end.
Proof.
  cbv zeta. unfold MyNotes.handleDelete, MyNotes.handleDeleteStart.
  destruct user as [userId|]; [|simpl; repeat split; auto; congruence].
  destruct confirmed; cbn [negb];
    [|simpl; repeat split; auto; congruence].
  unfold Supabase.deleteNote, MyNotes.handleDeleteResume.
  destruct (Supabase.onDelete db (Supabase.tick db)) as [ack|error|];
    try (simpl; repeat split; auto; congruence).
  assert (Hin : forall n,
            In n (filter (fun n => negb (strEqb (SavedNote.id n) noteId))
                    (MyNotes.notes s))
            <-> In n (MyNotes.notes s) /\ SavedNote.id n <> noteId)
    by apply filter_other_ids.
  cbn [MyNotes.success MyNotes.noteId MyNotes.renderedNotes
       MyNotes.renderedSelection].
  destruct (MyNotes.selectedNote s) as [open|] eqn:Hopen.
  - destruct (strEqb (SavedNote.id open) noteId) eqn:Hid; simpl;
      rewrite ?Hopen.
    + split; [intros n Hn; apply Hin in Hn; tauto|].
      split; [intros n H1 H2; apply Hin; auto|].
      split; [discriminate|]. split; [discriminate|].
      split; [|reflexivity].
      intros _. split; [reflexivity|]. split; [eexists; reflexivity|].
      intros n Hn. apply Hin in Hn. tauto.
    + split; [intros n Hn; apply Hin in Hn; tauto|].
      split; [intros n H1 H2; apply Hin; auto|].
      split; [auto|].
      split.
      { intros Hlisted n Hn. inversion Hn; subst n. apply Hin.
        split; [apply Hlisted; reflexivity|].
        intros Heq. rewrite Heq, strEqb_refl in Hid. discriminate. }
      split; [|reflexivity].
      intros _. split; [reflexivity|]. split; [eexists; reflexivity|].
      intros n Hn. apply Hin in Hn. tauto.
  - simpl. rewrite ?Hopen.
    split; [intros n Hn; apply Hin in Hn; tauto|].
    split; [intros n H1 H2; apply Hin; auto|].
    split; [auto|]. split; [discriminate|].
    split; [|reflexivity].
    intros _. split; [reflexivity|]. split; [eexists; reflexivity|].
    intros n Hn. apply Hin in Hn. tauto.
Qed.

(** X27 -- two deletions that overlap bring a deleted note back on the
    list: when a second note is deleted before the store has answered for
    the first, both in the same render and both accepted by the store, two
    queries are sent, one for each id, and once both answers are in (the
    first, then the second) the list shown is the list of that render
    without the notes of the second id only; the notes of the first id,
    which the store has deleted, are listed again. *)
Theorem overlapping_deletions_list_a_deleted_note_again
    (userId a b : JsString) (s : MyNotes.State) (db : Supabase.Db) :
  user = Some userId ->
  a <> b ->
  exists s1 db1 first s2 db2 second,
    MyNotes.handleDeleteStart user true a s db = (s1, db1, Some first)
    /\ MyNotes.handleDeleteStart user true b s1 db1 = (s2, db2, Some second)
    /\ Supabase.queries db2
       = Supabase.queries db
         ++ [Supabase.DeleteNote a userId; Supabase.DeleteNote b userId]
    /\ (MyNotes.success first = true -> MyNotes.success second = true ->
        let shown :=
          MyNotes.notes
            (MyNotes.handleDeleteResume second
               (MyNotes.handleDeleteResume first s2)) in
        (forall n, In n shown
                   <-> In n (MyNotes.notes s) /\ SavedNote.id n <> b)
        /\ (forall n, In n (MyNotes.notes s) -> SavedNote.id n = a ->
                      In n shown)
        /\ (forall n, In n (MyNotes.notes (MyNotes.handleDeleteResume first s2))
                      -> SavedNote.id n <> a)).
Proof.
  intros Hu Hab. unfold MyNotes.handleDeleteStart. rewrite Hu. cbn [negb].
  unfold Supabase.deleteNote.
  do 6 eexists. split; [reflexivity|]. split; [reflexivity|].
  split; [simpl; rewrite <- app_assoc; reflexivity|].
  intros H1 H2. cbv zeta.
  rewrite !(notes_resume _ _ H2).
  assert (Hfirst := notes_resume _
                      (MyNotes.setDeleting (Some b)
                         (MyNotes.setDeleting (Some a) s)) H1).
  cbn [MyNotes.noteId MyNotes.renderedNotes MyNotes.setDeleting
       MyNotes.notes] in Hfirst |- *.
  split; [|split].
  - intros n. apply filter_other_ids.
  - intros n Hn Hid. apply filter_other_ids.
    split; [exact Hn | congruence].
  - intros n Hn. rewrite Hfirst in Hn. apply filter_other_ids in Hn. tauto.
Qed.

End NotesProperties.

(** * The further properties on sample inputs *)

(** X1 on a collection whose third entry carries the id of the first: a
    click on the third node selects the first entry. *)
Lemma map_click_selects_the_first_with_the_id_witness :
  nth_error
    (App.concepts
       (app (start [Sample.tcp; Sample.udp; Sample.tcpAgain]
               (Sample.world []))))
    2 = Some Sample.tcpAgain
  /\ App.selectedConcept
       (app (@selectNode Sample.reader Sample.environment 2
               (start [Sample.tcp; Sample.udp; Sample.tcpAgain]
                  (Sample.world []))))
     = Some Sample.tcp.
Proof.
  split; [reflexivity|].
  destruct (@map_click_selects_the_first_with_the_id Sample.reader
              Sample.environment
              (start [Sample.tcp; Sample.udp; Sample.tcpAgain]
                 (Sample.world [])) 2 Sample.tcpAgain eq_refl)
    as (j & c & _ & _ & _ & _ & Hclick & _ & Hsel & _).
  rewrite Hsel, <- Hclick. reflexivity.
Defined.


(** X5 at APPLICATION: whatever is handed back is at most at REASONING. *)
Lemma submit_climbs_one_level_witness :
  MasteryLevel.member (Concept.masteryLevel (Sample.atLevel 3))
  /\ Forall (fun u => Concept.masteryLevel u <= 4)
       (@handedBack Sample.reader Sample.environment (Sample.atLevel 3)
          (Sample.answering (str "ordered bytes"))
          (Sample.world [Sample.says "yes"])).
Proof.
  assert (Hm : MasteryLevel.member (Concept.masteryLevel (Sample.atLevel 3)))
    by (split; discriminate).
  split; [exact Hm|]. apply Forall_forall. intros u Hu.
  edestruct (@submit_climbs_one_level Sample.reader Sample.environment
               (Sample.atLevel 3) u (Sample.answering (str "ordered bytes"))
               (Sample.world [Sample.says "yes"]) _ Sample.asked _
               Hm eq_refl eq_refl eq_refl Hu) as (Hle & _).
  exact Hle.
Defined.

(** X10 on a text of a space, a line feed and a tab. *)
Lemma blank_content_extracts_nothing_witness :
  blank [32; 10; 9]%N = true
  /\ @Service.extractConceptsFromContent Sample.reader gemini [32; 10; 9]%N
       (Sample.world [Sample.says "[]"])
     = (Return [], Sample.world [Sample.says "[]"]).
Proof.
  split; [reflexivity|].
  apply (@blank_content_extracts_nothing Sample.reader gemini). reflexivity.
Defined.

(** X11 on a short text: one request, carrying the text. *)
Lemma extraction_starts_every_concept_locked_witness :
  blank (str "TCP and UDP") = false
  /\ requests
       (snd (@Service.extractConceptsFromContent Sample.reader openai
               (str "TCP and UDP") (Sample.world [Sample.says "[]"])))
     = [ExtractRequest openai (str "TCP and UDP")].
Proof.
  split; [reflexivity|].
  edestruct (@extraction_starts_every_concept_locked Sample.reader openai
               (str "TCP and UDP") (Sample.world [Sample.says "[]"]))
    as (outcome & Hrun & _); [reflexivity|].
  rewrite Hrun. reflexivity.
Defined.

(** X14 on a text with a sun sign (U+2600) in it. *)
Lemma stripEmoji_on_plain_text_witness :
  Forall (fun u => isHighSurrogate u = false) (str "a" ++ [9728%N] ++ str "b")
  /\ stripEmoji (str "a" ++ [9728%N] ++ str "b") = str "ab".
Proof.
  assert (H : Forall (fun u => isHighSurrogate u = false)
                (str "a" ++ [9728%N] ++ str "b"))
    by (repeat constructor).
  split; [exact H|].
  destruct (stripEmoji_on_plain_text (str "a" ++ [9728%N] ++ str "b") H)
    as (Heq & _).
  rewrite Heq. reflexivity.
Defined.

(** X18 on a short link with a time stamp. *)
Lemma video_id_is_a_clean_piece_of_the_url_witness :
  FileProcessing.extractYouTubeVideoId (str "https://youtu.be/dQw4w9WgXcQ?t=1")
  = Some (str "dQw4w9WgXcQ")
  /\ exists pre post,
       str "https://youtu.be/dQw4w9WgXcQ?t=1"
       = pre ++ str "dQw4w9WgXcQ" ++ post.
Proof.
  split; [reflexivity|].
  destruct (video_id_is_a_clean_piece_of_the_url
              (str "https://youtu.be/dQw4w9WgXcQ?t=1") (str "dQw4w9WgXcQ")
              eq_refl) as (_ & _ & Hpiece).
  exact Hpiece.
Defined.

(** X19 on a watch link with a further query parameter. *)
Lemma video_id_round_trip_witness :
  In (str "youtube.com/watch?v=") FileProcessing.markers
  /\ endsIdAt (str "&t=10")
  /\ FileProcessing.extractYouTubeVideoId
       (str "https://www." ++ str "youtube.com/watch?v="
        ++ str "dQw4w9WgXcQ" ++ str "&t=10")
     = Some (str "dQw4w9WgXcQ").
Proof.
  assert (Hm : In (str "youtube.com/watch?v=") FileProcessing.markers)
    by (simpl; auto).
  assert (Ht : endsIdAt (str "&t=10")) by reflexivity.
  split; [exact Hm|]. split; [exact Ht|].
  apply (video_id_round_trip (str "https://www.")
           (str "youtube.com/watch?v=") (str "dQw4w9WgXcQ") (str "&t=10")).
  - exact Hm.
  - repeat constructor; discriminate.
  - discriminate.
  - repeat constructor.
  - exact Ht.
Defined.

(** X20 on an id of eleven characters. *)
Lemma bare_video_id_is_accepted_witness :
  forallb FileProcessing.isIdChar (str "dQw4w9WgXcQ") = true
  /\ FileProcessing.extractYouTubeVideoId (str "dQw4w9WgXcQ")
     = Some (str "dQw4w9WgXcQ").
Proof.
  split; [reflexivity|].
  apply (bare_video_id_is_accepted (str "dQw4w9WgXcQ")). reflexivity.
Defined.

(** X27 on three notes: n1 is deleted, then n2 before the store has
    answered for n1; once both answers are in, n1 is listed again. *)
Lemma overlapping_deletions_list_a_deleted_note_again_witness :
  Some (str "user-1") = Some (str "user-1")
  /\ str "n1" <> str "n2"
  /\ exists s1 db1 first s2 db2 second,
       MyNotes.handleDeleteStart (Some (str "user-1")) true (str "n1")
         SampleNotes.listed SampleNotes.db
       = (s1, db1, Some first)
       /\ MyNotes.handleDeleteStart (Some (str "user-1")) true (str "n2")
            s1 db1
          = (s2, db2, Some second)
       /\ map SavedNote.id
            (MyNotes.notes
               (MyNotes.handleDeleteResume second
                  (MyNotes.handleDeleteResume first s2)))
          = [str "n1"; str "n3"].
Proof.
  assert (Hne : str "n1" <> str "n2") by discriminate.
  split; [reflexivity|]. split; [exact Hne|].
  destruct (overlapping_deletions_list_a_deleted_note_again
              (Some (str "user-1")) (str "user-1") (str "n1") (str "n2")
              SampleNotes.listed SampleNotes.db eq_refl Hne)
    as (s1 & db1 & first & s2 & db2 & second & H1 & H2 & _).
  exists s1, db1, first, s2, db2, second.
  split; [exact H1|]. split; [exact H2|].
  injection H1 as <- <- <-. injection H2 as <- <- <-. reflexivity.
Defined.
